(** * Hub engine (apps/hubble): validation gate, merge router, revocation
      cascade, registry ingestion, query surface, and [bytes32ToBytes].

    The development embeds [src/apps/hubble/src/eth/utils.ts].  The engine is a
    facade over collaborators that are not part of that file (six stores, the
    key-value database, the schema validator, the logger).  Every collaborator
    call is therefore an explicit node of a small free monad; running a program
    against an arbitrary answering function yields the returned value, the
    final collaborator state and the list of calls that were made. *)

From Stdlib Require Import ZArith List String Ascii Bool Lia Arith.
From Stdlib Require Import HexadecimalString Hexadecimal HexadecimalZ.
From Stdlib Require HexadecimalPos HexadecimalFacts.
From Stdlib.Strings Require Byte.
From Equations Require Import Equations.
Import ListNotations.

Local Open Scope string_scope.
Local Open Scope list_scope.

(* ===================================================================== *)
(** * Part I. Definitions *)
(* ===================================================================== *)

(** ** Bytes, errors, results, promises *)

(** A [Uint8Array]. *)
Definition bytes := list Byte.byte.

Definition bytes_eqb (a b : bytes) : bool :=
  if list_eq_dec Byte.byte_eq_dec a b then true else false.

(** [new HubError(errCode, message)]. *)
Record HubError := mkHubError { errCode : string; message : string }.

(** neverthrow's [Result<T, HubError>], i.e. [HubResult<T>]. *)
Inductive HubResult (A : Type) : Type :=
| Ok (value : A)
| Err (error : HubError).
Arguments Ok {A} value.
Arguments Err {A} error.

Definition isErr {A} (r : HubResult A) : bool :=
  match r with Ok _ => false | Err _ => true end.

Definition isOk {A} (r : HubResult A) : bool := negb (isErr r).

(** A settled JavaScript promise: fulfilled with a value, or rejected.  The
    rejection reason is what [(e) => e as HubError] treats as a [HubError].
    A rejected promise is what an [async] function yields when it throws. *)
Inductive Promise (A : Type) : Type :=
| Resolved (value : A)
| Rejected (reason : HubError).
Arguments Resolved {A} value.
Arguments Rejected {A} reason.

(** ** [bytes32ToBytes] (lines 3-11) *)

(** [value.toString(16)] for a bigint: lower-case digits, a leading minus
    sign for negative values, ["0"] for zero. *)
Definition toString16 (value : Z) : string :=
  NilZero.string_of_int (Z.to_hex_int value).

(** An index argument of [String.prototype.substring]: negative values count
    as 0 and values beyond the length as the length. *)
Definition clampIndex (len : nat) (i : Z) : nat :=
  if (i <? 0)%Z then 0 else Nat.min (Z.to_nat i) len.

(** [s.substring(indexStart, indexEnd)]; [indexEnd] omitted is the length;
    the two clamped indices are swapped when the first is the larger. *)
Definition js_substring (s : string) (indexStart : Z) (indexEnd : option Z) : string :=
  let len := String.length s in
  let a := clampIndex len indexStart in
  let b := match indexEnd with Some e => clampIndex len e | None => len end in
  String.substring (Nat.min a b) (Nat.max a b - Nat.min a b) s.

(** The loop condition [hex.substring(hex.length - 2) === '00']. *)
Definition endsWith00 (hex : string) : bool :=
  String.eqb (js_substring hex (Z.of_nat (String.length hex) - 2) None) "00".

(** The loop body [hex = hex.substring(0, hex.length - 2)]. *)
Definition dropLast2 (hex : string) : string :=
  js_substring hex 0 (Some (Z.of_nat (String.length hex) - 2)%Z).

Definition inspect {A} (a : A) : {b : A | a = b} := exist _ a eq_refl.

Lemma substring_length (s : string) (n m : nat) :
  n + m <= String.length s -> String.length (String.substring n m s) = m.
Proof.
  revert n m; induction s as [|c s IH]; intros n m H; simpl in H.
  - assert (n = 0) by lia. assert (m = 0) by lia. subst. reflexivity.
  - destruct n as [|n]; destruct m as [|m]; simpl; try reflexivity.
    + rewrite IH by lia. reflexivity.
    + apply IH. lia.
    + apply IH. lia.
Qed.

Lemma substring_length_le (s : string) (n m : nat) :
  String.length (String.substring n m s) <= String.length s - n.
Proof.
  revert n m; induction s as [|c s IH]; intros n m.
  - destruct n; destruct m; simpl; lia.
  - destruct n as [|n]; destruct m as [|m]; simpl; try lia.
    + specialize (IH 0 m). lia.
    + apply IH.
    + apply IH.
Qed.

Lemma endsWith00_length (hex : string) :
  endsWith00 hex = true -> 2 <= String.length hex.
Proof.
  unfold endsWith00, js_substring. intros H.
  apply String.eqb_eq in H.
  assert (L : String.length
            (substring
               (Nat.min (clampIndex (String.length hex) (Z.of_nat (String.length hex) - 2))
                  (String.length hex))
               (Nat.max (clampIndex (String.length hex) (Z.of_nat (String.length hex) - 2))
                  (String.length hex) -
                Nat.min (clampIndex (String.length hex) (Z.of_nat (String.length hex) - 2))
                  (String.length hex)) hex) = 2) by (rewrite H; reflexivity).
  pose proof (substring_length_le hex
     (Nat.min (clampIndex (String.length hex) (Z.of_nat (String.length hex) - 2))
                  (String.length hex))
     (Nat.max (clampIndex (String.length hex) (Z.of_nat (String.length hex) - 2))
                  (String.length hex) -
                Nat.min (clampIndex (String.length hex) (Z.of_nat (String.length hex) - 2))
                  (String.length hex))) as B.
  lia.
Qed.

Lemma dropLast2_length (hex : string) :
  2 <= String.length hex -> String.length (dropLast2 hex) + 2 = String.length hex.
Proof.
  intros H. unfold dropLast2, js_substring, clampIndex.
  change (0 <? 0)%Z with false. cbv iota.
  destruct (Z.ltb_spec (Z.of_nat (String.length hex) - 2) 0) as [L|L]; [lia|].
  rewrite Nat.min_0_l, Nat.max_0_l, Nat.sub_0_r.
  rewrite substring_length; lia.
Qed.

(** The padding-stripping loop
    [while (hex.substring(hex.length - 2) === '00') hex = hex.substring(0, hex.length - 2);]
    as a recursion on the length of [hex]: it is accepted because every
    iteration shortens the string. *)
Equations? stripPadding (hex : string) : string by wf (String.length hex) lt :=
  stripPadding hex with inspect (endsWith00 hex) := {
    | exist _ true _ := stripPadding (dropLast2 hex);
    | exist _ false _ := hex }.
Proof.
  pose proof (endsWith00_length hex e) as L.
  pose proof (dropLast2_length hex L). lia.
Qed.

Section Bytes32.

(** [hexStringToBytes] of the package [@farcaster/utils]: not part of this
    file, taken as it is. *)
Variable hexStringToBytes : string -> HubResult bytes.

Definition bytes32ToBytes (value : Z) : HubResult bytes :=
  (* Remove right padding *)
  let hex := toString16 value in
  let hex := stripPadding hex in
  hexStringToBytes hex.

End Bytes32.

(** ** Messages and registry events (the flatbuffers models) *)

(** [MessageType] of [message_generated]: the message kinds the engine
    distinguishes; [MessageType_NONE] is the falsy member. *)
Inductive MessageType : Type :=
| MessageType_NONE
| CastAdd | CastRemove
| FollowAdd | FollowRemove
| ReactionAdd | ReactionRemove
| VerificationAddEthAddress | VerificationRemove
| SignerAdd | SignerRemove
| UserDataAdd.

(** [UserPostfix]: the key-space tag [message.setPostfix()] returns.  The
    enumeration has members besides the six message sets; they are
    [UserPostfix_other]. *)
Inductive UserPostfix : Type :=
| CastMessage
| FollowMessage
| ReactionMessage
| SignerMessage
| VerificationMessage
| UserDataMessage
| UserPostfix_other (tag : N).

(** [UserDataType]: only [Fname] is named by the engine. *)
Inductive UserDataType : Type :=
| Fname
| UserDataType_other (tag : N).

(** [ReactionType] is passed through as its number. *)
Definition ReactionType := N.

(** The body of a message: a user-data body carries a type and an optional
    string value ([value()] may be [null]); the value is kept as the string
    whose bytes [TextEncoder.encode] yields. *)
Inductive MessageBody : Type :=
| UserDataBody (type : UserDataType) (value : option string)
| SignerBody (signer : bytes)
| OtherBody.

(** [MessageModel]: the accessors the engine reads. *)
Record Message := mkMessage {
  fid : bytes;
  signer : bytes;
  hash : bytes;
  type : MessageType;
  setPostfix : UserPostfix;
  body : MessageBody
}.

Inductive IdRegistryEventType : Type :=
| IdRegistryRegister
| IdRegistryTransfer
| IdRegistryEventType_other (tag : N).

Inductive NameRegistryEventType : Type :=
| NameRegistryTransfer
| NameRegistryRenew
| NameRegistryEventType_other (tag : N).

(** [IdRegistryEventModel]: [type()], [fid()], [to()]. *)
Record IdRegistryEvent := mkIdRegistryEvent {
  id_type : IdRegistryEventType;
  id_fid : bytes;
  id_to : bytes
}.

(** [NameRegistryEventModel]: [type()], [fname()], [to()]. *)
Record NameRegistryEvent := mkNameRegistryEvent {
  name_type : NameRegistryEventType;
  name_fname : bytes;
  name_to : bytes
}.

(** [CastId] and [UserId] tables; the validated variants expose the same
    fields through [fidArray()] and [tsHashArray()]. *)
Record CastId := mkCastId { castId_fid : bytes; castId_tsHash : bytes }.
Record UserId := mkUserId { userId_fid : bytes }.
Definition ValidatedCastId := CastId.
Definition ValidatedUserId := UserId.
Definition fidArray (c : ValidatedCastId) : bytes := castId_fid c.
Definition tsHashArray (c : ValidatedCastId) : bytes := castId_tsHash c.
Definition user_fidArray (u : ValidatedUserId) : bytes := userId_fid u.

(** [HubStateModel]: the node's sync checkpoint. *)
Record HubState := mkHubState { lastEthBlock : N }.

(** The type guards of [typeguards]. *)
Definition MessageType_eqb (a b : MessageType) : bool :=
  match a, b with
  | MessageType_NONE, MessageType_NONE
  | CastAdd, CastAdd | CastRemove, CastRemove
  | FollowAdd, FollowAdd | FollowRemove, FollowRemove
  | ReactionAdd, ReactionAdd | ReactionRemove, ReactionRemove
  | VerificationAddEthAddress, VerificationAddEthAddress
  | VerificationRemove, VerificationRemove
  | SignerAdd, SignerAdd | SignerRemove, SignerRemove
  | UserDataAdd, UserDataAdd => true
  | _, _ => false
  end.

Definition isSignerAdd (m : Message) : bool := MessageType_eqb (type m) SignerAdd.
Definition isSignerRemove (m : Message) : bool := MessageType_eqb (type m) SignerRemove.
Definition isUserDataAdd (m : Message) : bool :=
  MessageType_eqb (type m) UserDataAdd &&
  match body m with UserDataBody _ _ => true | _ => false end.

Definition UserPostfix_eqb (a b : UserPostfix) : bool :=
  match a, b with
  | CastMessage, CastMessage
  | FollowMessage, FollowMessage
  | ReactionMessage, ReactionMessage
  | SignerMessage, SignerMessage
  | VerificationMessage, VerificationMessage
  | UserDataMessage, UserDataMessage => true
  | UserPostfix_other x, UserPostfix_other y => N.eqb x y
  | _, _ => false
  end.

(** [new TextEncoder().encode(s)]. *)
Definition TextEncoder_encode (s : string) : bytes := list_byte_of_string s.

(** Modelled from the spec: [bytesCompare] of [~/storage/flatbuffers/utils]
    is not part of the sources.  The spec asks for a full-content byte
    comparison in which a binding that was not found falls into the mismatch
    branch: two present addresses are compared byte by byte (a lexicographic
    three-way comparison, 0 exactly on equal contents); an absent side never
    compares equal. *)
Fixpoint bytesCompare_present (a b : bytes) : Z :=
  match a, b with
  | [], [] => 0
  | [], _ :: _ => -1
  | _ :: _, [] => 1
  | x :: a', y :: b' =>
      match N.compare (Byte.to_N x) (Byte.to_N y) with
      | Lt => -1
      | Gt => 1
      | Eq => bytesCompare_present a' b'
      end
  end%Z.

Definition bytesCompare (a b : option bytes) : Z :=
  match a, b with
  | Some x, Some y => bytesCompare_present x y
  | Some _, None => 1
  | None, _ => -1
  end%Z.

(** ** Collaborator calls *)

Inductive StoreId : Type :=
| CastStore | FollowStore | ReactionStore | SignerStore | VerificationStore | UserDataStore.

(** The read operations of the stores and of the models that read the
    database ([this._db]) directly, indexed by what their promise fulfils
    with. *)
Inductive StoreRead : Type -> Type :=
| castStore_getCastAdd (fid tsHash : bytes) : StoreRead Message
| castStore_getCastAddsByUser (fid : bytes) : StoreRead (list Message)
| castStore_getCastRemovesByUser (fid : bytes) : StoreRead (list Message)
| castStore_getCastsByParent (fid tsHash : bytes) : StoreRead (list Message)
| castStore_getCastsByMention (fid : bytes) : StoreRead (list Message)
| followStore_getFollowAdd (fid user : bytes) : StoreRead Message
| followStore_getFollowAddsByUser (fid : bytes) : StoreRead (list Message)
| followStore_getFollowRemovesByUser (fid : bytes) : StoreRead (list Message)
| followStore_getFollowsByTargetUser (fid : bytes) : StoreRead (list Message)
| reactionStore_getReactionAdd (fid : bytes) (type : ReactionType) (cast : CastId)
    : StoreRead Message
| reactionStore_getReactionAddsByUser (fid : bytes) (type : option ReactionType)
    : StoreRead (list Message)
| reactionStore_getReactionRemovesByUser (fid : bytes) : StoreRead (list Message)
| reactionStore_getReactionsByTargetCast (cast : CastId) (type : option ReactionType)
    : StoreRead (list Message)
| verificationStore_getVerificationAdd (fid address : bytes) : StoreRead Message
| verificationStore_getVerificationAddsByUser (fid : bytes) : StoreRead (list Message)
| verificationStore_getVerificationRemovesByUser (fid : bytes) : StoreRead (list Message)
| signerStore_getCustodyAddress (fid : bytes) : StoreRead bytes
| signerStore_getSignerAdd (fid signer : bytes) : StoreRead Message
| signerStore_getSignerAddsByUser (fid : bytes) : StoreRead (list Message)
| signerStore_getSignerRemovesByUser (fid : bytes) : StoreRead (list Message)
| signerStore_getCustodyEvent (fid : bytes) : StoreRead IdRegistryEvent
| signerStore_getFids : StoreRead (list bytes)
| userDataStore_getUserDataAdd (fid : bytes) (type : UserDataType) : StoreRead Message
| userDataStore_getUserDataAddsByUser (fid : bytes) : StoreRead (list Message)
| IdRegistryEventModel_get (fid : bytes) : StoreRead (option IdRegistryEvent)
| NameRegistryEventModel_get (fname : bytes) : StoreRead (option NameRegistryEvent)
| HubStateModel_get : StoreRead HubState.

(** What [logger.info] is given. *)
Inductive LogRecord : Type :=
| Log_mergeMessage (hash fid : bytes) (type : MessageType) (source : string)
| Log_mergeIdRegistryEvent (event : IdRegistryEventType) (source : string)
| Log_mergeNameRegistryEvent (event : NameRegistryEventType) (source : string).

(** Every call the engine makes to a collaborator, indexed by what the call
    hands back.  Store and database methods hand back a promise. *)
Inductive Collab : Type -> Type :=
| Read {X : Type} (r : StoreRead X) : Collab (Promise X)
| Merge (s : StoreId) (m : Message) : Collab (Promise unit)
| signerStore_mergeIdRegistryEvent (event : IdRegistryEvent) : Collab (Promise unit)
| userDataStore_mergeNameRegistryEvent (event : NameRegistryEvent) : Collab (Promise unit)
| Revoke (s : StoreId) (fid signer : bytes) : Collab (Promise (HubResult unit))
| validations_validateMessage (m : Message) : Collab (Promise (HubResult Message))
| logger_info (r : LogRecord) : Collab unit
| db_commit (hubState : HubState) : Collab (Promise unit).

(** ** Programs over collaborator calls *)

Inductive Prog (R : Type) : Type :=
| Ret (r : R)
| Vis {X : Type} (c : Collab X) (k : X -> Prog R).
Arguments Ret {R} r.
Arguments Vis {R X} c k.

Fixpoint bind {A B : Type} (p : Prog A) (f : A -> Prog B) : Prog B :=
  match p with
  | Ret a => f a
  | Vis c k => Vis c (fun x => bind (k x) f)
  end.

Definition call {X : Type} (c : Collab X) : Prog X := Vis c (fun x => Ret x).

Notation "x <- p ;; q" := (bind p (fun x => q))
  (at level 61, p at next level, right associativity).
Notation "p ;;; q" := (bind p (fun _ => q))
  (at level 61, right associativity).

(** The body of an [async] function: it settles its promise. *)
Definition Async (R : Type) : Type := Prog (Promise R).

(** [return v] in an [async] function. *)
Definition ret {R} (v : R) : Async R := Ret (Resolved v).

(** [const x = await p; ...]: a rejected promise makes the enclosing
    [async] function reject with the same reason. *)
Definition await {X R : Type} (p : Prog (Promise X)) (k : X -> Async R) : Async R :=
  r <- p ;;
  match r with
  | Resolved x => k x
  | Rejected e => Ret (Rejected e)
  end.

(** [await ResultAsync.fromPromise(p, (e) => e as HubError)]: the rejection
    becomes an [Err] value. *)
Definition fromPromise {X : Type} (p : Prog (Promise X)) : Prog (HubResult X) :=
  r <- p ;;
  Ret match r with
      | Resolved x => Ok x
      | Rejected e => Err e
      end.

(** ** The engine (class [Engine], lines 58-574) *)

(** The synchronous argument validators of [validations]; they are not part
    of this file and are taken as they are. *)
Record Validations := mkValidations {
  validateFid : bytes -> HubResult bytes;
  validateTsHash : bytes -> HubResult bytes;
  validateCastId : CastId -> HubResult ValidatedCastId;
  validateUserId : UserId -> HubResult ValidatedUserId;
  validateEd25519PublicKey : bytes -> HubResult bytes;
  validateEthAddress : bytes -> HubResult bytes;
  validateReactionType : ReactionType -> HubResult ReactionType
}.

Definition bad_request (msg : string) : HubError :=
  mkHubError "bad_request.validation_failure" msg.

(** A default parameter [source = 'unknown']. *)
Definition default_source (source : option string) : string :=
  match source with Some s => s | None => "unknown" end.

(** *** [validateMessage] (private, lines 528-573) *)

(** 2. Check that the signer is valid if message is not a signer message;
    [k] is the rest of the function. *)
Definition checkSigner {R} (message : Message) (k : Async (HubResult R)) : Async (HubResult R) :=
  if negb (isSignerAdd message) && negb (isSignerRemove message) then
    signerResult <- fromPromise (call (Read (signerStore_getSignerAdd (fid message) (signer message)))) ;;
    if isErr signerResult then ret (Err (bad_request "invalid signer"))
    else k
  else k.

(** 3. For fname add UserDataAdd messages, check that the user actually owns
    the fname; [k] is the rest of the function. *)
Definition checkFname {R} (message : Message) (k : Async (HubResult R)) : Async (HubResult R) :=
  if isUserDataAdd message then
    match body message with
    | UserDataBody Fname value =>
        let fname := TextEncoder_encode (match value with Some v => v | None => "" end) in
        if (0 <? List.length fname)%nat then
          let fid := fid message in
          await (call (Read (IdRegistryEventModel_get fid))) (fun event =>
          let fidCustodyAddress := option_map id_to event in
          await (call (Read (NameRegistryEventModel_get fname))) (fun event =>
          let fnameCustodyAddress := option_map name_to event in
          if negb (bytesCompare fidCustodyAddress fnameCustodyAddress =? 0)%Z then
            ret (Err (bad_request "fname custody address does not match fid custody address"))
          else k))
        else k
    | _ => k
    end
  else k.

(** The error mappers [() => undefined] of steps 1 and 2 drop the rejection
    reason; only [isErr()] is looked at. *)
Definition validateMessage (message : Message) : Async (HubResult Message) :=
  (* 1. Check that the user has a custody address *)
  custodyAddress <- fromPromise (call (Read (signerStore_getCustodyAddress (fid message)))) ;;
  if isErr custodyAddress then ret (Err (bad_request "unknown user"))
  else
    checkSigner message
      (checkFname message
         (* 4. Check message body and envelope *)
         (call (validations_validateMessage message))).

(** *** [mergeMessage], [mergeMessages] (lines 83-132) *)

(** [ResultAsync.fromPromise(store.merge(message), ...)] followed by the
    [result.then] callback that logs a successful merge. *)
Definition mergeInto (s : StoreId) (message : Message) (source : string)
  : Async (HubResult unit) :=
  res <- fromPromise (call (Merge s message)) ;;
  if isOk res then
    call (logger_info (Log_mergeMessage (hash message) (fid message) (type message) source)) ;;;
    ret res
  else ret res.

Definition mergeMessage (message : Message) (source : option string) : Async (HubResult unit) :=
  let source := default_source source in
  await (validateMessage message) (fun validatedMessage =>
  match validatedMessage with
  | Err error => ret (Err error)
  | Ok _ =>
      if UserPostfix_eqb (setPostfix message) CastMessage then
        mergeInto CastStore message source
      else if UserPostfix_eqb (setPostfix message) FollowMessage then
        mergeInto FollowStore message source
      else if UserPostfix_eqb (setPostfix message) ReactionMessage then
        mergeInto ReactionStore message source
      else if UserPostfix_eqb (setPostfix message) SignerMessage then
        mergeInto SignerStore message source
      else if UserPostfix_eqb (setPostfix message) VerificationMessage then
        mergeInto VerificationStore message source
      else if UserPostfix_eqb (setPostfix message) UserDataMessage then
        mergeInto UserDataStore message source
      else
        ret (Err (bad_request "invalid message type"))
  end).

(** The [for (const message of messages)] loop; [results] is the array
    being filled by [results.push]. *)
Fixpoint mergeMessages_loop (messages : list Message) (source : string)
    (results : list (HubResult unit)) : Async (list (HubResult unit)) :=
  match messages with
  | [] => ret results
  | message :: rest =>
      await (mergeMessage message (Some source)) (fun r =>
      mergeMessages_loop rest source (results ++ [r]))
  end.

Definition mergeMessages (messages : list Message) (source : option string)
  : Async (list (HubResult unit)) :=
  mergeMessages_loop messages (default_source source) [].

(** *** Registry events (lines 134-174) *)

Definition mergeIdRegistryEvent (event : IdRegistryEvent) (source : option string)
  : Async (HubResult unit) :=
  let source := default_source source in
  match id_type event with
  | IdRegistryRegister | IdRegistryTransfer =>
      call (logger_info (Log_mergeIdRegistryEvent (id_type event) source)) ;;;
      r <- fromPromise (call (signerStore_mergeIdRegistryEvent event)) ;;
      ret r
  | _ => ret (Err (bad_request "invalid event type"))
  end.

Definition mergeNameRegistryEvent (event : NameRegistryEvent) (source : option string)
  : Async (HubResult unit) :=
  let source := default_source source in
  match name_type event with
  | NameRegistryTransfer | NameRegistryRenew =>
      call (logger_info (Log_mergeNameRegistryEvent (name_type event) source)) ;;;
      r <- fromPromise (call (userDataStore_mergeNameRegistryEvent event)) ;;
      ret r
  | _ => ret (Err (bad_request "invalid event type"))
  end.

(** *** [revokeMessagesBySigner] (lines 176-185) *)

Definition revokeMessagesBySigner (fid signer : bytes) : Async (HubResult unit) :=
  await (call (Revoke CastStore fid signer)) (fun _ =>
  await (call (Revoke FollowStore fid signer)) (fun _ =>
  await (call (Revoke ReactionStore fid signer)) (fun _ =>
  await (call (Revoke VerificationStore fid signer)) (fun _ =>
  await (call (Revoke UserDataStore fid signer)) (fun _ =>
  await (call (Revoke SignerStore fid signer)) (fun _ =>
  ret (Ok tt))))))).

(** *** Query surface (lines 187-522) *)

Section Queries.

Context (V : Validations).

(** [return ResultAsync.fromPromise(store.read(...), (e) => e as HubError)]. *)
Definition readStore {X : Type} (r : StoreRead X) : Async (HubResult X) :=
  res <- fromPromise (call (Read r)) ;; ret res.

(** The body shared by the [getAll...MessagesByFid] accessors: read the
    adds, then the removes, and return [[...adds.value, ...removes.value]]. *)
Definition readAddsAndRemoves (getAdds getRemoves : StoreRead (list Message))
  : Async (HubResult (list Message)) :=
  adds <- fromPromise (call (Read getAdds)) ;;
  match adds with
  | Err error => ret (Err error)
  | Ok adds_value =>
      removes <- fromPromise (call (Read getRemoves)) ;;
      match removes with
      | Err error => ret (Err error)
      | Ok removes_value => ret (Ok (adds_value ++ removes_value))
      end
  end.

(* Cast Store Methods *)

Definition getCast (fid tsHash : bytes) : Async (HubResult Message) :=
  match validateFid V fid with
  | Err error => ret (Err error)
  | Ok _ =>
      match validateTsHash V tsHash with
      | Err error => ret (Err error)
      | Ok _ => readStore (castStore_getCastAdd fid tsHash)
      end
  end.

Definition getCastsByFid (fid : bytes) : Async (HubResult (list Message)) :=
  match validateFid V fid with
  | Ok validatedFid => readStore (castStore_getCastAddsByUser validatedFid)
  | Err e => ret (Err e)
  end.

Definition getCastsByParent (parent : CastId) : Async (HubResult (list Message)) :=
  match validateCastId V parent with
  | Ok validatedParent =>
      readStore (castStore_getCastsByParent (fidArray validatedParent)
                   (tsHashArray validatedParent))
  | Err e => ret (Err e)
  end.

Definition getCastsByMention (user : UserId) : Async (HubResult (list Message)) :=
  match validateUserId V user with
  | Ok validatedUserId => readStore (castStore_getCastsByMention (user_fidArray validatedUserId))
  | Err e => ret (Err e)
  end.

Definition getAllCastMessagesByFid (fid : bytes) : Async (HubResult (list Message)) :=
  readAddsAndRemoves (castStore_getCastAddsByUser fid) (castStore_getCastRemovesByUser fid).

(* Follow Store Methods *)

Definition getFollow (fid : bytes) (user : UserId) : Async (HubResult Message) :=
  match validateFid V fid with
  | Err error => ret (Err error)
  | Ok _ =>
      match validateUserId V user with
      | Err error => ret (Err error)
      | Ok validatedUser => readStore (followStore_getFollowAdd fid (user_fidArray validatedUser))
      end
  end.

Definition getFollowsByFid (fid : bytes) : Async (HubResult (list Message)) :=
  match validateFid V fid with
  | Ok validatedFid => readStore (followStore_getFollowAddsByUser validatedFid)
  | Err e => ret (Err e)
  end.

Definition getFollowsByUser (user : UserId) : Async (HubResult (list Message)) :=
  match validateUserId V user with
  | Ok validatedUserId =>
      readStore (followStore_getFollowsByTargetUser (user_fidArray validatedUserId))
  | Err e => ret (Err e)
  end.

Definition getAllFollowMessagesByFid (fid : bytes) : Async (HubResult (list Message)) :=
  readAddsAndRemoves (followStore_getFollowAddsByUser fid)
    (followStore_getFollowRemovesByUser fid).

(* Reaction Store Methods *)

Definition getReaction (fid : bytes) (type : ReactionType) (cast : CastId)
  : Async (HubResult Message) :=
  match validateFid V fid with
  | Err error => ret (Err error)
  | Ok _ =>
      match validateReactionType V type with
      | Err error => ret (Err error)
      | Ok _ =>
          match validateCastId V cast with
          | Err error => ret (Err error)
          | Ok _ => readStore (reactionStore_getReactionAdd fid type cast)
          end
      end
  end.

Definition getReactionsByFid (fid : bytes) (type : option ReactionType)
  : Async (HubResult (list Message)) :=
  match validateFid V fid with
  | Ok validatedFid => readStore (reactionStore_getReactionAddsByUser validatedFid type)
  | Err e => ret (Err e)
  end.

Definition getReactionsByCast (cast : CastId) (type : option ReactionType)
  : Async (HubResult (list Message)) :=
  match validateCastId V cast with
  | Ok validatedCastId => readStore (reactionStore_getReactionsByTargetCast validatedCastId type)
  | Err e => ret (Err e)
  end.

Definition getAllReactionMessagesByFid (fid : bytes) : Async (HubResult (list Message)) :=
  readAddsAndRemoves (reactionStore_getReactionAddsByUser fid None)
    (reactionStore_getReactionRemovesByUser fid).

(* Verification Store Methods *)

Definition getVerification (fid address : bytes) : Async (HubResult Message) :=
  match validateFid V fid with
  | Err error => ret (Err error)
  | Ok _ =>
      match validateEthAddress V address with
      | Err error => ret (Err error)
      | Ok _ => readStore (verificationStore_getVerificationAdd fid address)
      end
  end.

Definition getVerificationsByFid (fid : bytes) : Async (HubResult (list Message)) :=
  match validateFid V fid with
  | Err error => ret (Err error)
  | Ok _ => readStore (verificationStore_getVerificationAddsByUser fid)
  end.

Definition getAllVerificationMessagesByFid (fid : bytes) : Async (HubResult (list Message)) :=
  readAddsAndRemoves (verificationStore_getVerificationAddsByUser fid)
    (verificationStore_getVerificationRemovesByUser fid).

(* Signer Store Methods *)

Definition getSigner (fid signerPubKey : bytes) : Async (HubResult Message) :=
  match validateFid V fid with
  | Err error => ret (Err error)
  | Ok _ =>
      match validateEd25519PublicKey V signerPubKey with
      | Err error => ret (Err error)
      | Ok _ => readStore (signerStore_getSignerAdd fid signerPubKey)
      end
  end.

Definition getSignersByFid (fid : bytes) : Async (HubResult (list Message)) :=
  match validateFid V fid with
  | Err error => ret (Err error)
  | Ok _ => readStore (signerStore_getSignerAddsByUser fid)
  end.

Definition getCustodyEvent (fid : bytes) : Async (HubResult IdRegistryEvent) :=
  match validateFid V fid with
  | Err error => ret (Err error)
  | Ok _ => readStore (signerStore_getCustodyEvent fid)
  end.

Definition getFids : Async (HubResult (list bytes)) :=
  readStore signerStore_getFids.

Definition getAllSignerMessagesByFid (fid : bytes) : Async (HubResult (list Message)) :=
  readAddsAndRemoves (signerStore_getSignerAddsByUser fid)
    (signerStore_getSignerRemovesByUser fid).

(* User Data Store Methods *)

Definition getUserData (fid : bytes) (type : UserDataType) : Async (HubResult Message) :=
  match validateFid V fid with
  | Err error => ret (Err error)
  | Ok _ => readStore (userDataStore_getUserDataAdd fid type)
  end.

Definition getUserDataByFid (fid : bytes) : Async (HubResult (list Message)) :=
  match validateFid V fid with
  | Err error => ret (Err error)
  | Ok _ => readStore (userDataStore_getUserDataAddsByUser fid)
  end.

(* Hub State Methods *)

Definition getHubState : Async (HubResult HubState) :=
  readStore HubStateModel_get.

(** [db.transaction()], [HubStateModel.putTransaction(txn, hubState)] and
    the commit of that transaction. *)
Definition updateHubState (hubState : HubState) : Async (HubResult unit) :=
  res <- fromPromise (call (db_commit hubState)) ;; ret res.

End Queries.

(** ** Running a program against its collaborators *)

(** A call that was made, whatever it handed back. *)
Definition Event : Type := { X : Type & Collab X }.
Definition event {X : Type} (c : Collab X) : Event := existT Collab X c.

(** The collaborators: they answer every call and may change their state
    [W] (the database behind the stores) while doing so. *)
Definition Handler (W : Type) : Type := forall X : Type, Collab X -> W -> X * W.

(** The outcome of a run: what the program returned, the collaborators'
    final state, and the calls in the order they were made. *)
Record Outcome (W R : Type) : Type := mkOutcome {
  result : R;
  final : W;
  trace : list Event
}.
Arguments mkOutcome {W R} result final trace.
Arguments result {W R} o.
Arguments final {W R} o.
Arguments trace {W R} o.

Fixpoint run {W R : Type} (h : Handler W) (p : Prog R) (w : W) : Outcome W R :=
  match p with
  | Ret r => mkOutcome r w []
  | Vis c k =>
      let (x, w1) := h _ c w in
      let o := run h (k x) w1 in
      mkOutcome (result o) (final o) (event c :: trace o)
  end.

Definition merge_target (e : Event) : option (StoreId * Message) :=
  match projT2 e with Merge s m => Some (s, m) | _ => None end.

(** The merges a run performed, in order. *)
Definition merges (tr : list Event) : list (StoreId * Message) :=
  flat_map (fun e => match merge_target e with Some x => [x] | None => [] end) tr.

(** ** A reference collaborator: stores kept in memory

    The stores, the database and the validator are collaborators of the
    engine; the theorems below hold for every [Handler].  This in-memory
    handler is one of them, used to exhibit concrete runs. *)

Definition StoreId_eqb (a b : StoreId) : bool :=
  match a, b with
  | CastStore, CastStore | FollowStore, FollowStore | ReactionStore, ReactionStore
  | SignerStore, SignerStore | VerificationStore, VerificationStore
  | UserDataStore, UserDataStore => true
  | _, _ => false
  end.

Record World := mkWorld {
  custody : list (bytes * bytes);        (* account id, custody address; newest first *)
  activeSigners : list (bytes * bytes);  (* account id, authorized signer key *)
  fnames : list (bytes * bytes);         (* handle, custody address; newest first *)
  stored : list (StoreId * Message);     (* merged messages, oldest first *)
  broken : list StoreId                  (* stores whose writes fail at present *)
}.

Fixpoint lookup (k : bytes) (l : list (bytes * bytes)) : option bytes :=
  match l with
  | [] => None
  | (k', v) :: l' => if bytes_eqb k k' then Some v else lookup k l'
  end.

Definition not_found : HubError := mkHubError "not_found" "not found".
Definition storage_failure : HubError := mkHubError "unavailable.storage_failure" "write failed".

Definition is_broken (s : StoreId) (w : World) : bool :=
  existsb (StoreId_eqb s) (broken w).

Definition is_add (t : MessageType) : bool :=
  match t with
  | CastAdd | FollowAdd | ReactionAdd | VerificationAddEthAddress | SignerAdd | UserDataAdd => true
  | _ => false
  end.

(** The messages of store [s] and account [fid], adds or removes. *)
Definition messagesOf (s : StoreId) (adds : bool) (f : bytes) (w : World) : list Message :=
  map snd (filter (fun sm => StoreId_eqb (fst sm) s && bytes_eqb (fid (snd sm)) f
                             && Bool.eqb (is_add (type (snd sm))) adds) (stored w)).

Definition signerAddOf (f k : bytes) : Message :=
  mkMessage f k [] SignerAdd SignerMessage (SignerBody k).

(** Modelled from the spec: the stores' getters.  "Not found" is a rejected
    promise for the getters of a single item and distinct from an empty
    list; the registry models yield the newest event or none. *)
Definition memRead (w : World) {X : Type} (r : StoreRead X) : Promise X :=
  match r in StoreRead X return Promise X with
  | castStore_getCastAddsByUser f => Resolved (messagesOf CastStore true f w)
  | castStore_getCastRemovesByUser f => Resolved (messagesOf CastStore false f w)
  | followStore_getFollowAddsByUser f => Resolved (messagesOf FollowStore true f w)
  | followStore_getFollowRemovesByUser f => Resolved (messagesOf FollowStore false f w)
  | reactionStore_getReactionAddsByUser f _ => Resolved (messagesOf ReactionStore true f w)
  | reactionStore_getReactionRemovesByUser f => Resolved (messagesOf ReactionStore false f w)
  | verificationStore_getVerificationAddsByUser f =>
      Resolved (messagesOf VerificationStore true f w)
  | verificationStore_getVerificationRemovesByUser f =>
      Resolved (messagesOf VerificationStore false f w)
  | signerStore_getSignerAddsByUser f => Resolved (messagesOf SignerStore true f w)
  | signerStore_getSignerRemovesByUser f => Resolved (messagesOf SignerStore false f w)
  | userDataStore_getUserDataAddsByUser f => Resolved (messagesOf UserDataStore true f w)
  | castStore_getCastsByParent _ _ => Resolved []
  | castStore_getCastsByMention _ => Resolved []
  | followStore_getFollowsByTargetUser _ => Resolved []
  | reactionStore_getReactionsByTargetCast _ _ => Resolved []
  | castStore_getCastAdd _ _ => Rejected not_found
  | followStore_getFollowAdd _ _ => Rejected not_found
  | reactionStore_getReactionAdd _ _ _ => Rejected not_found
  | verificationStore_getVerificationAdd _ _ => Rejected not_found
  | userDataStore_getUserDataAdd _ _ => Rejected not_found
  | signerStore_getCustodyAddress f =>
      match lookup f (custody w) with
      | Some a => Resolved a
      | None => Rejected not_found
      end
  | signerStore_getSignerAdd f k =>
      if existsb (fun fk => bytes_eqb (fst fk) f && bytes_eqb (snd fk) k) (activeSigners w)
      then Resolved (signerAddOf f k)
      else Rejected not_found
  | signerStore_getCustodyEvent f =>
      match lookup f (custody w) with
      | Some a => Resolved (mkIdRegistryEvent IdRegistryRegister f a)
      | None => Rejected not_found
      end
  | signerStore_getFids => Resolved (map fst (custody w))
  | IdRegistryEventModel_get f =>
      Resolved (option_map (mkIdRegistryEvent IdRegistryRegister f) (lookup f (custody w)))
  | NameRegistryEventModel_get n =>
      Resolved (option_map (mkNameRegistryEvent NameRegistryTransfer n) (lookup n (fnames w)))
  | HubStateModel_get => Resolved (mkHubState 0)
  end.

Definition memRevoke (s : StoreId) (f k : bytes) (w : World) : World :=
  mkWorld (custody w) (activeSigners w) (fnames w)
    (filter (fun sm => negb (StoreId_eqb (fst sm) s && bytes_eqb (fid (snd sm)) f
                             && bytes_eqb (signer (snd sm)) k)) (stored w))
    (broken w).

(** Modelled from the spec: the six stores, the registry models and the
    logger are not part of the sources.  Custody and name events bind an
    account or a handle to an address, a later event superseding an earlier
    one; a store's merge keeps the message and fails on a persistence
    error; a store's revoke drops the messages of the account signed by the
    key; the logger changes nothing.  The schema/signature validator is
    independent of the stores' state and is a parameter. *)
Definition memHandler (validator : Message -> Promise (HubResult Message)) : Handler World :=
  fun X c w =>
    match c in Collab X return X * World with
    | Read r => (memRead w r, w)
    | Merge s m =>
        if is_broken s w then (Rejected storage_failure, w)
        else (Resolved tt,
              mkWorld (custody w) (activeSigners w) (fnames w) (stored w ++ [(s, m)]) (broken w))
    | signerStore_mergeIdRegistryEvent ev =>
        (Resolved tt,
         mkWorld ((id_fid ev, id_to ev) :: custody w) (activeSigners w) (fnames w)
           (stored w) (broken w))
    | userDataStore_mergeNameRegistryEvent ev =>
        (Resolved tt,
         mkWorld (custody w) (activeSigners w) ((name_fname ev, name_to ev) :: fnames w)
           (stored w) (broken w))
    | Revoke s f k =>
        if is_broken s w then (Rejected storage_failure, w)
        else (Resolved (Ok tt), memRevoke s f k w)
    | validations_validateMessage m => (validator m, w)
    | logger_info _ => (tt, w)
    | db_commit _ => (Resolved tt, w)
    end.

(** Modelled from the spec: a schema/signature validator that reports a
    malformed message (here: an empty hash) as an error value and hands
    back a well-formed message unchanged. *)
Definition returningValidator (m : Message) : Promise (HubResult Message) :=
  match hash m with
  | [] => Resolved (Err (bad_request "invalid hash"))
  | _ => Resolved (Ok m)
  end.

(** Modelled from the spec: a schema/signature validator that lets the
    failure propagate, as the comment on step 4 of [validateMessage] says
    it will ("will throw HubError if invalid"). *)
Definition throwingValidator (m : Message) : Promise (HubResult Message) :=
  match hash m with
  | [] => Rejected (bad_request "invalid hash")
  | _ => Resolved (Ok m)
  end.

(** Sample data. *)
Definition b (n : N) : Byte.byte :=
  match Byte.of_N n with Some x => x | None => Byte.x00 end.

Definition alice : bytes := [b 1].
Definition bob : bytes := [b 2].
Definition aliceAddress : bytes := [b 160; b 1].
Definition bobAddress : bytes := [b 176; b 2].
Definition aliceKey : bytes := [b 75; b 1].
Definition strangerKey : bytes := [b 75; b 9].
Definition h1 : bytes := [b 17].

(** Alice is registered with one active signer and owns the handle
    ["alice"]; ["bobby"] belongs to another address; Bob is not registered. *)
Definition world0 : World :=
  mkWorld [(alice, aliceAddress)] [(alice, aliceKey)]
    [(TextEncoder_encode "alice", aliceAddress); (TextEncoder_encode "bobby", bobAddress)]
    [] [].

Definition castBy (f k hsh : bytes) : Message :=
  mkMessage f k hsh CastAdd CastMessage OtherBody.

Definition fnameAdd (f k : bytes) (value : option string) : Message :=
  mkMessage f k h1 UserDataAdd UserDataMessage (UserDataBody Fname value).

(** ** Vocabulary of the statements *)

(** The calls of [validateMessage]: the custody lookup of step 1, the signer
    lookup of step 2, the two registry lookups of step 3 and the
    schema/signature validator of step 4. *)
Definition custodyLookup (m : Message) : Collab (Promise bytes) :=
  Read (signerStore_getCustodyAddress (fid m)).

Definition signerLookup (m : Message) : Collab (Promise Message) :=
  Read (signerStore_getSignerAdd (fid m) (signer m)).

Definition fidRegistryLookup (m : Message) : Collab (Promise (option IdRegistryEvent)) :=
  Read (IdRegistryEventModel_get (fid m)).

Definition fnameRegistryLookup (fname : bytes) : Collab (Promise (option NameRegistryEvent)) :=
  Read (NameRegistryEventModel_get fname).

Definition schemaCheck (m : Message) : Collab (Promise (HubResult Message)) :=
  validations_validateMessage m.

(** The handle a message asks for: [message.body().value() ?? ''], encoded. *)
Definition fnameOf (value : option string) : bytes :=
  TextEncoder_encode (match value with Some v => v | None => "" end).


Definition fname_mismatch : HubError :=
  bad_request "fname custody address does not match fid custody address".

(** The merges a run performed are read off its calls; a check of the
    validation gate is a store or registry lookup, or the schema/signature
    validator. *)
Definition is_validator (e : Event) : bool :=
  match projT2 e with validations_validateMessage _ => true | _ => false end.

Definition is_lookup (e : Event) : bool :=
  match projT2 e with Read _ => true | _ => false end.

Definition is_check (e : Event) : bool := is_lookup e || is_validator e.

(** The store of each of the six categories. *)
Definition storeOf (p : UserPostfix) : option StoreId :=
  match p with
  | CastMessage => Some CastStore
  | FollowMessage => Some FollowStore
  | ReactionMessage => Some ReactionStore
  | SignerMessage => Some SignerStore
  | VerificationMessage => Some VerificationStore
  | UserDataMessage => Some UserDataStore
  | UserPostfix_other _ => None
  end.

(** The log entry of a successful merge. *)
Definition mergeLog (m : Message) (source : string) : Collab unit :=
  logger_info (Log_mergeMessage (hash m) (fid m) (type m) source).

(** A call whose promise is never rejected, in whatever state it is made. *)
Definition settles {W X : Type} (h : Handler W) (c : Collab (Promise X)) : Prop :=
  forall w : W, exists x : X, fst (h _ c w) = Resolved x.

(** An [async] body whose promise is never rejected. *)
Definition settled {W R : Type} (h : Handler W) (p : Async R) : Prop :=
  forall w : W, exists r : R, result (run h p w) = Resolved r.

(** The calls that [validateMessage] awaits outside [ResultAsync.fromPromise]
    (the two registry lookups of the fname check and the schema/signature
    validator) raise no fault. *)
Definition no_fault {W : Type} (h : Handler W) : Prop :=
  (forall f, settles h (Read (IdRegistryEventModel_get f))) /\
  (forall n, settles h (Read (NameRegistryEventModel_get n))) /\
  (forall m, settles h (validations_validateMessage m)).

(** [rs] are the results of merging [msgs] one after the other from state
    [w]: each message is merged in the state its predecessor left, whether
    the predecessor succeeded or not; [w'] is the state after the last one
    and [tr] the calls of all of them in order. *)
Inductive MergedInOrder {W : Type} (h : Handler W) (source : string)
  : W -> list Message -> list (HubResult unit) -> W -> list Event -> Prop :=
| MergedInOrder_nil (w : W) : MergedInOrder h source w [] [] w []
| MergedInOrder_cons (w w' : W) (m : Message) (ms : list Message)
    (r : HubResult unit) (rs : list (HubResult unit)) (tr : list Event) :
    result (run h (mergeMessage m (Some source)) w) = Resolved r ->
    MergedInOrder h source (final (run h (mergeMessage m (Some source)) w)) ms rs w' tr ->
    MergedInOrder h source w (m :: ms) (r :: rs) w'
                  (trace (run h (mergeMessage m (Some source)) w) ++ tr).

(** The lookups and the validator leave the collaborators' state as it is. *)
Definition checks_preserve {W : Type} (h : Handler W) : Prop :=
  forall (X : Type) (c : Collab X) (w : W), is_check (event c) = true -> snd (h _ c w) = w.

(** The schema/signature validator hands back the message it was given. *)
Definition validator_returns_input {W : Type} (h : Handler W) : Prop :=
  forall (m m' : Message) (w : W),
    fst (h _ (validations_validateMessage m) w) = Resolved (Ok m') -> m' = m.

(** The six revoke calls, in the order of the source. *)
Definition revokeOrder : list StoreId :=
  [CastStore; FollowStore; ReactionStore; VerificationStore; UserDataStore; SignerStore].

(** An accessor returns the error [e] and calls nothing. *)
Definition fails_fast {W R : Type} (h : Handler W) (w : W) (p : Async (HubResult R))
    (e : HubError) : Prop :=
  run h p w = mkOutcome (Resolved (Err e)) w [].

(** [k] two-character groups ["00"]. *)
Fixpoint zeros (k : nat) : string :=
  match k with
  | 0 => ""
  | S k' => ("00" ++ zeros k')%string
  end.

(** ** Sample runs: data *)

Definition h2 : bytes := [b 34].

(** A batch of three whose second message fails the schema check. *)
Definition batch : list Message :=
  [castBy alice aliceKey h1; castBy alice aliceKey []; castBy alice aliceKey h2].

(** Alice has a cast and a reaction signed by [aliceKey]; the reaction
    store cannot write. *)
Definition world_reactions_down : World :=
  mkWorld [(alice, aliceAddress)] [(alice, aliceKey)] []
    [(CastStore, castBy alice aliceKey h1);
     (ReactionStore, mkMessage alice aliceKey h2 ReactionAdd ReactionMessage OtherBody)]
    [ReactionStore].

(** Modelled from the spec: argument validators for the sample runs; an
    account id, a hash, a key or an address must not be empty. *)
Definition nonEmpty (what : string) (x : bytes) : HubResult bytes :=
  match x with
  | [] => Err (bad_request what)
  | _ => Ok x
  end.

Definition sampleValidations : Validations :=
  mkValidations
    (nonEmpty "fid is missing")
    (nonEmpty "tsHash is missing")
    (fun c => match castId_fid c with [] => Err (bad_request "fid is missing") | _ => Ok c end)
    (fun u => match userId_fid u with [] => Err (bad_request "fid is missing") | _ => Ok u end)
    (nonEmpty "publicKey is missing")
    (nonEmpty "address is missing")
    (fun t => Ok t).

(** ** Vocabulary of the further properties *)

(** The revoke calls for the stores [l], one after the other: the first
    rejected promise ends the sequence with that rejection; what a
    fulfilled promise carries is dropped. *)
Fixpoint revokeSeq {W : Type} (h : Handler W) (fid signer : bytes) (l : list StoreId) (w : W)
  : Outcome W (Promise (HubResult unit)) :=
  match l with
  | [] => mkOutcome (Resolved (Ok tt)) w []
  | s :: l' =>
      match h _ (Revoke s fid signer) w with
      | (Resolved _, w1) =>
          let o := revokeSeq h fid signer l' w1 in
          mkOutcome (result o) (final o) (event (Revoke s fid signer) :: trace o)
      | (Rejected e, w1) => mkOutcome (Rejected e) w1 [event (Revoke s fid signer)]
      end
  end.

(** The log entries a run wrote, in order. *)
Definition logs (tr : list Event) : list LogRecord :=
  flat_map (fun e => match projT2 e with logger_info r => [r] | _ => [] end) tr.

(** The registry lookups of the fname check, and the signer lookup. *)
Definition is_registry_lookup (e : Event) : bool :=
  match projT2 e with
  | Read (IdRegistryEventModel_get _) | Read (NameRegistryEventModel_get _) => true
  | _ => false
  end.

Definition is_signer_lookup (e : Event) : bool :=
  match projT2 e with
  | Read (signerStore_getSignerAdd _ _) => true
  | _ => false
  end.

(** A promise turned into a result, as [ResultAsync.fromPromise] does. *)
Definition toResult {X : Type} (p : Promise X) : HubResult X :=
  match p with Resolved x => Ok x | Rejected e => Err e end.

(** One store read whose answer is returned as a result. *)
Definition readOnce {W X : Type} (h : Handler W) (w : W) (r : StoreRead X)
  : Outcome W (Promise (HubResult X)) :=
  mkOutcome (Resolved (toResult (fst (h _ (Read r) w)))) (snd (h _ (Read r) w))
            [event (Read r)].

(** The outcome of reading the adds and then the removes of a store: a
    rejected read of the adds is the error returned and the removes are
    not read; otherwise a rejected read of the removes is the error
    returned; otherwise the adds followed by the removes are returned. *)
Definition addsThenRemoves {W : Type} (h : Handler W) (w : W)
    (getAdds getRemoves : StoreRead (list Message))
  : Outcome W (Promise (HubResult (list Message))) :=
  match h _ (Read getAdds) w with
  | (Rejected e, w1) => mkOutcome (Resolved (Err e)) w1 [event (Read getAdds)]
  | (Resolved adds, w1) =>
      match h _ (Read getRemoves) w1 with
      | (Rejected e, w2) =>
          mkOutcome (Resolved (Err e)) w2 [event (Read getAdds); event (Read getRemoves)]
      | (Resolved removes, w2) =>
          mkOutcome (Resolved (Ok (adds ++ removes))) w2
                    [event (Read getAdds); event (Read getRemoves)]
      end
  end.

(** The five "all messages" accessors with the getters they read. *)
Definition allMessagesAccessors (fid : bytes)
  : list (Async (HubResult (list Message)) *
          (StoreRead (list Message) * StoreRead (list Message))) :=
  [(getAllCastMessagesByFid fid,
    (castStore_getCastAddsByUser fid, castStore_getCastRemovesByUser fid));
   (getAllFollowMessagesByFid fid,
    (followStore_getFollowAddsByUser fid, followStore_getFollowRemovesByUser fid));
   (getAllReactionMessagesByFid fid,
    (reactionStore_getReactionAddsByUser fid None, reactionStore_getReactionRemovesByUser fid));
   (getAllVerificationMessagesByFid fid,
    (verificationStore_getVerificationAddsByUser fid,
     verificationStore_getVerificationRemovesByUser fid));
   (getAllSignerMessagesByFid fid,
    (signerStore_getSignerAddsByUser fid, signerStore_getSignerRemovesByUser fid))].

(** Modelled from the spec: collaborators as [memHandler], except that a
    store that cannot write reports the failure of a revoke as an error
    value of a fulfilled promise ([Store.revokeBySigner -> outcome]). *)
Definition memHandlerReporting (validator : Message -> Promise (HubResult Message))
  : Handler World :=
  fun X c w =>
    match c in Collab X return X * World with
    | Revoke s f k =>
        if is_broken s w then (Resolved (Err storage_failure), w)
        else (Resolved (Ok tt), memRevoke s f k w)
    | c' => memHandler validator _ c' w
    end.

(** Modelled from the spec: collaborators as [memHandler], except that the
    registry models reject the lookup of an account or handle that has no
    event, as a key-value [get] of a missing key does. *)
Definition memHandlerStrict (validator : Message -> Promise (HubResult Message))
  : Handler World :=
  fun X c w =>
    match c in Collab X return X * World with
    | Read r =>
        (match r in StoreRead T return Promise T with
         | IdRegistryEventModel_get f =>
             match lookup f (custody w) with
             | Some a => Resolved (Some (mkIdRegistryEvent IdRegistryRegister f a))
             | None => Rejected not_found
             end
         | NameRegistryEventModel_get n =>
             match lookup n (fnames w) with
             | Some a => Resolved (Some (mkNameRegistryEvent NameRegistryTransfer n a))
             | None => Rejected not_found
             end
         | r' => memRead w r'
         end, w)
    | c' => memHandler validator _ c' w
    end.

(** The handle of a message's body, if it has one. *)
Definition fnameOfBody (m : Message) : bytes :=
  match body m with
  | UserDataBody _ value => fnameOf value
  | _ => []
  end.

(** The results pushed before a batch, put in front of the batch's own. *)
Definition extend (acc : list (HubResult unit)) (p : Promise (list (HubResult unit)))
  : Promise (list (HubResult unit)) :=
  match p with
  | Resolved rs => Resolved (acc ++ rs)
  | Rejected e => Rejected e
  end.

(** [n] characters ["0"]. *)
Fixpoint zeroDigits (n : nat) : string :=
  match n with 0 => "" | S n' => String "0" (zeroDigits n') end.

(** A batch of three whose second message asks for a handle that no name
    event binds. *)
Definition batchUnboundHandle : list Message :=
  [castBy alice aliceKey h1; fnameAdd alice aliceKey (Some "carol"); castBy alice aliceKey h2].

(* ===================================================================== *)
(** * Part II. Properties *)
(* ===================================================================== *)

(** ** [bytes32ToBytes] *)

Lemma zeros_snoc (k : nat) : (zeros k ++ "00")%string = zeros (S k).
Proof.
  induction k as [|k IH]; [reflexivity|].
  change (zeros (S k)) with ("00" ++ zeros k)%string.
  change (("00" ++ zeros k) ++ "00")%string with ("00" ++ (zeros k ++ "00"))%string.
  rewrite IH. reflexivity.
Qed.

Lemma string_app_nil_r (s : string) : (s ++ "")%string = s.
Proof. induction s as [|c s IH]; simpl; [reflexivity | now rewrite IH]. Qed.

Lemma string_app_assoc (s t u : string) :
  ((s ++ t) ++ u)%string = (s ++ (t ++ u))%string.
Proof. induction s as [|c s IH]; simpl; [reflexivity | now rewrite IH]. Qed.

Lemma string_app_length (s t : string) :
  String.length (s ++ t)%string = String.length s + String.length t.
Proof. induction s as [|c s IH]; simpl; [reflexivity | now rewrite IH]. Qed.

Lemma substring_0_all (s : string) : String.substring 0 (String.length s) s = s.
Proof. induction s as [|c s IH]; simpl; [reflexivity | now rewrite IH]. Qed.

Lemma substring_split (s : string) (n : nat) :
  n <= String.length s ->
  (String.substring 0 n s ++ String.substring n (String.length s - n) s)%string = s.
Proof.
  revert n; induction s as [|c s IH]; intros n H; simpl in H.
  - assert (n = 0) by lia; subst; reflexivity.
  - destruct n as [|n]; simpl.
    + now rewrite substring_0_all.
    + rewrite IH by lia. reflexivity.
Qed.

Lemma substring_app_right (p q : string) (m : nat) :
  String.substring (String.length p) m (p ++ q)%string = String.substring 0 m q.
Proof.
  induction p as [|c p IH]; simpl; [reflexivity|].
  destruct m; simpl; apply IH.
Qed.

Lemma substring_app_left (p q : string) :
  String.substring 0 (String.length p) (p ++ q)%string = p.
Proof.
  induction p as [|c p IH]; simpl.
  - destruct q; reflexivity.
  - now rewrite IH.
Qed.

(** With at least two characters, the condition of the loop looks at the
    last two characters and its body keeps all the others. *)
Lemma endsWith00_unfold (hex : string) :
  2 <= String.length hex ->
  endsWith00 hex = String.eqb (String.substring (String.length hex - 2) 2 hex) "00".
Proof.
  intros H. unfold endsWith00, js_substring, clampIndex.
  destruct (Z.ltb_spec (Z.of_nat (String.length hex) - 2) 0) as [L|L]; [lia|].
  replace (Z.to_nat (Z.of_nat (String.length hex) - 2)) with (String.length hex - 2) by lia.
  rewrite (Nat.min_l (String.length hex - 2) (String.length hex)) by lia.
  rewrite Nat.min_l by lia. rewrite Nat.max_r by lia.
  replace (String.length hex - (String.length hex - 2)) with 2 by lia.
  reflexivity.
Qed.

Lemma dropLast2_unfold (hex : string) :
  2 <= String.length hex ->
  dropLast2 hex = String.substring 0 (String.length hex - 2) hex.
Proof.
  intros H. unfold dropLast2, js_substring, clampIndex.
  change (0 <? 0)%Z with false. cbv iota.
  destruct (Z.ltb_spec (Z.of_nat (String.length hex) - 2) 0) as [L|L]; [lia|].
  rewrite Nat.min_0_l, Nat.max_0_l, Nat.sub_0_r.
  replace (Z.to_nat (Z.of_nat (String.length hex) - 2)) with (String.length hex - 2) by lia.
  rewrite Nat.min_l by lia. reflexivity.
Qed.

Lemma endsWith00_split (hex : string) :
  endsWith00 hex = true -> hex = (dropLast2 hex ++ "00")%string.
Proof.
  intros H. pose proof (endsWith00_length hex H) as L.
  rewrite endsWith00_unfold in H by exact L.
  apply String.eqb_eq in H.
  rewrite dropLast2_unfold by exact L.
  pose proof (substring_split hex (String.length hex - 2)) as S.
  replace (String.length hex - (String.length hex - 2)) with 2 in S by lia.
  rewrite H in S. symmetry. apply S. lia.
Qed.

Lemma endsWith00_app (p : string) : endsWith00 (p ++ "00")%string = true.
Proof.
  rewrite endsWith00_unfold by (rewrite string_app_length; simpl; lia).
  rewrite string_app_length. simpl String.length.
  replace (String.length p + 2 - 2) with (String.length p) by lia.
  rewrite substring_app_right. reflexivity.
Qed.

(** The condition of the loop holds exactly for the strings that end with
    the two characters ["00"]. *)
Lemma endsWith00_iff (hex : string) :
  endsWith00 hex = true <-> exists p, hex = (p ++ "00")%string.
Proof.
  split.
  - intros H. exists (dropLast2 hex). now apply endsWith00_split.
  - intros [p ->]. apply endsWith00_app.
Qed.

Lemma stripPadding_iterate (hex : string) :
  endsWith00 hex = true -> stripPadding hex = stripPadding (dropLast2 hex).
Proof.
  intros H. funelim (stripPadding hex); [reflexivity | congruence].
Qed.

Lemma stripPadding_exit (hex : string) :
  endsWith00 hex = false -> stripPadding hex = hex.
Proof.
  intros H. funelim (stripPadding hex); [congruence | reflexivity].
Qed.

Lemma stripPadding_spec (hex : string) :
  (exists k, hex = (stripPadding hex ++ zeros k)%string) /\
  endsWith00 (stripPadding hex) = false.
Proof.
  funelim (stripPadding hex).
  - (* one more iteration *)
    match goal with
    | IH : (exists k, dropLast2 ?h = _) /\ _ |- _ => destruct IH as [[k Hk] Hend]
    end.
    split; [|exact Hend].
    exists (S k).
    pose proof (endsWith00_split hex e) as Hs.
    rewrite Hs at 1. rewrite Hk at 1.
    rewrite string_app_assoc. f_equal.
    apply zeros_snoc.
  - (* loop exit *)
    split; [|exact e].
    exists 0. simpl. now rewrite string_app_nil_r.
Qed.

(** C10.  For every bigint [value] the padding-stripping loop of
    [bytes32ToBytes] terminates: [stripPadding] is a total function whose
    recursion is justified by the length of the string, and each iteration
    shortens the string by exactly two characters.  [bytes32ToBytes value]
    is [hexStringToBytes] applied to the hexadecimal representation of
    [value] with all trailing ["00"] groups removed: the representation is
    the stripped string followed by some number of ["00"] groups, and the
    stripped string does not end with ["00"]. *)
Theorem bytes32ToBytes_total (hexStringToBytes : string -> HubResult bytes) (value : Z) :
  (forall hex, endsWith00 hex = true ->
     String.length (dropLast2 hex) + 2 = String.length hex /\
     stripPadding hex = stripPadding (dropLast2 hex)) /\
  (forall hex, endsWith00 hex = false -> stripPadding hex = hex) /\
  exists stripped k,
    bytes32ToBytes hexStringToBytes value = hexStringToBytes stripped /\
    toString16 value = (stripped ++ zeros k)%string /\
    ~ (exists p, stripped = (p ++ "00")%string).
Proof.
  split; [|split].
  - intros hex H. split.
    + apply dropLast2_length. now apply endsWith00_length.
    + now apply stripPadding_iterate.
  - intros hex H. now apply stripPadding_exit.
  - destruct (stripPadding_spec (toString16 value)) as [[k Hk] Hend].
    exists (stripPadding (toString16 value)), k.
    split; [reflexivity|]. split; [exact Hk|].
    intros Hp. apply endsWith00_iff in Hp. congruence.
Qed.

(** Sample values: right-padded bytes32 words, a word whose last two
    characters are ["00"] across a byte boundary, zero, and a negative
    bigint. *)
Example bytes32ToBytes_samples :
  toString16 0x6162630000 = "6162630000" /\
  stripPadding (toString16 0x6162630000) = "616263" /\
  stripPadding (toString16 0x100) = "1" /\
  stripPadding (toString16 0) = "0" /\
  stripPadding (toString16 (-0xab00)) = "-ab" /\
  bytes32ToBytes (fun hex => Ok (list_byte_of_string hex)) 0x6162630000 =
    Ok (list_byte_of_string "616263").
Proof. repeat split. Qed.

(** ** Running programs: general facts *)

Section RunFacts.

Context {W : Type} (h : Handler W).

Lemma run_Vis {X R : Type} (c : Collab X) (k : X -> Prog R) (w : W) :
  run h (Vis c k) w =
  let o := run h (k (fst (h _ c w))) (snd (h _ c w)) in
  mkOutcome (result o) (final o) (event c :: trace o).
Proof. simpl. destruct (h X c w); reflexivity. Qed.

Lemma run_call {X : Type} (c : Collab X) (w : W) :
  run h (call c) w = mkOutcome (fst (h _ c w)) (snd (h _ c w)) [event c].
Proof. unfold call. rewrite run_Vis. reflexivity. Qed.

Lemma run_bind {A B : Type} (p : Prog A) (f : A -> Prog B) (w : W) :
  run h (bind p f) w =
  let o1 := run h p w in
  let o2 := run h (f (result o1)) (final o1) in
  mkOutcome (result o2) (final o2) (trace o1 ++ trace o2).
Proof.
  revert w; induction p as [a | X c k IH]; intros w.
  - simpl. destruct (run h (f a) w); reflexivity.
  - simpl. destruct (h X c w) as [x w1]. rewrite IH. reflexivity.
Qed.

Lemma run_await {X R : Type} (p : Prog (Promise X)) (k : X -> Async R) (w : W) :
  run h (await p k) w =
  let o1 := run h p w in
  match result o1 with
  | Resolved x =>
      let o2 := run h (k x) (final o1) in
      mkOutcome (result o2) (final o2) (trace o1 ++ trace o2)
  | Rejected e => mkOutcome (Rejected e) (final o1) (trace o1)
  end.
Proof.
  unfold await. rewrite run_bind. cbv zeta.
  destruct (result (run h p w)); [reflexivity|].
  simpl. now rewrite app_nil_r.
Qed.

Lemma outcome_eta {R : Type} (o : Outcome W R) :
  o = mkOutcome (result o) (final o) (trace o).
Proof. destruct o; reflexivity. Qed.

End RunFacts.

Lemma merges_app (t1 t2 : list Event) : merges (t1 ++ t2) = merges t1 ++ merges t2.
Proof. unfold merges. apply flat_map_app. Qed.

(** ** The validation gate *)

Section ValidationFacts.

Context {W : Type} (h : Handler W).

(** A failed validation is returned by [mergeMessage] as it is, with
    nothing done after it. *)
Lemma mergeMessage_validation_failed (m : Message) (source : option string) (w : W)
      (error : HubError) :
  result (run h (validateMessage m) w) = Resolved (Err error) ->
  run h (mergeMessage m source) w =
  mkOutcome (Resolved (Err error)) (final (run h (validateMessage m) w))
            (trace (run h (validateMessage m) w)).
Proof.
  intros H. unfold mergeMessage. rewrite run_await. cbv zeta. rewrite H.
  simpl. now rewrite app_nil_r.
Qed.

Lemma validate_unknown_user (m : Message) (w w1 : W) (reason : HubError) :
  h _ (custodyLookup m) w = (Rejected reason, w1) ->
  run h (validateMessage m) w =
  mkOutcome (Resolved (Err (bad_request "unknown user"))) w1 [event (custodyLookup m)].
Proof.
  intros H. unfold validateMessage, custodyLookup in *. simpl. rewrite H. reflexivity.
Qed.

End ValidationFacts.

(** C4.  When the custody address of the message's account cannot be
    resolved (the store's [getCustodyAddress] promise rejects), validation
    returns the error "unknown user" (code [bad_request.validation_failure];
    the spec calls it AuthError "unknown account").  It is the first check:
    the custody lookup is the only call made, so neither the signer lookup,
    nor the fname lookups, nor the schema/signature validator run, and
    [mergeMessage] returns the same error without calling any store's
    merge. *)
Theorem validate_unknown_user_first {W : Type} (h : Handler W) (w w1 : W)
    (m : Message) (source : option string) (reason : HubError) :
  h _ (custodyLookup m) w = (Rejected reason, w1) ->
  run h (validateMessage m) w =
    mkOutcome (Resolved (Err (bad_request "unknown user"))) w1 [event (custodyLookup m)] /\
  run h (mergeMessage m source) w =
    mkOutcome (Resolved (Err (bad_request "unknown user"))) w1 [event (custodyLookup m)] /\
  merges (trace (run h (mergeMessage m source) w)) = [].
Proof.
  intros H.
  pose proof (validate_unknown_user h m w w1 reason H) as V.
  assert (G : run h (mergeMessage m source) w =
              mkOutcome (Resolved (Err (bad_request "unknown user"))) w1
                        [event (custodyLookup m)]).
  { rewrite (mergeMessage_validation_failed h m source w (bad_request "unknown user")).
    - rewrite V. reflexivity.
    - rewrite V. reflexivity. }
  split; [exact V|]. split; [exact G|].
  rewrite G. reflexivity.
Qed.

(** Bob has no custody address in [world0]. *)
Lemma validate_unknown_user_first_witness :
  run (memHandler returningValidator) (mergeMessage (castBy bob strangerKey h1) None) world0 =
  mkOutcome (Resolved (Err (bad_request "unknown user"))) world0
            [event (custodyLookup (castBy bob strangerKey h1))].
Proof.
  apply (validate_unknown_user_first (memHandler returningValidator) world0 world0
           (castBy bob strangerKey h1) None not_found).
  reflexivity.
Defined.

Section SignerCheckFacts.

Context {W : Type} (h : Handler W).

Lemma isUserDataAdd_not_signer (m : Message) :
  isUserDataAdd m = true -> isSignerAdd m = false /\ isSignerRemove m = false.
Proof.
  unfold isUserDataAdd, isSignerAdd, isSignerRemove.
  destruct (type m); simpl; intros H; try discriminate; split; reflexivity.
Qed.

Lemma signer_message_not_userData (m : Message) :
  isSignerAdd m = true \/ isSignerRemove m = true -> isUserDataAdd m = false.
Proof.
  unfold isUserDataAdd, isSignerAdd, isSignerRemove.
  destruct (type m); simpl; intros [H|H]; try discriminate; reflexivity.
Qed.

Lemma validate_invalid_signer (m : Message) (w w1 w2 : W) (a : bytes) (reason : HubError) :
  isSignerAdd m = false -> isSignerRemove m = false ->
  h _ (custodyLookup m) w = (Resolved a, w1) ->
  h _ (signerLookup m) w1 = (Rejected reason, w2) ->
  run h (validateMessage m) w =
  mkOutcome (Resolved (Err (bad_request "invalid signer"))) w2
            [event (custodyLookup m); event (signerLookup m)].
Proof.
  intros A R C S. unfold validateMessage, checkSigner, custodyLookup, signerLookup in *.
  simpl. rewrite C. simpl. rewrite A, R. simpl. rewrite S. reflexivity.
Qed.

Lemma validate_signer_message (m : Message) (w w1 : W) (a : bytes) :
  isSignerAdd m = true \/ isSignerRemove m = true ->
  h _ (custodyLookup m) w = (Resolved a, w1) ->
  run h (validateMessage m) w =
  mkOutcome (fst (h _ (schemaCheck m) w1)) (snd (h _ (schemaCheck m) w1))
            [event (custodyLookup m); event (schemaCheck m)].
Proof.
  intros S C.
  pose proof (signer_message_not_userData m S) as U.
  unfold validateMessage, checkSigner, checkFname, custodyLookup, schemaCheck in *.
  simpl. rewrite C. simpl.
  assert (G : negb (isSignerAdd m) && negb (isSignerRemove m) = false)
    by (destruct S as [S|S]; rewrite S; simpl; auto using andb_false_r).
  rewrite G, U. unfold call. simpl.
  destruct (h _ (validations_validateMessage m) w1); reflexivity.
Qed.

End SignerCheckFacts.

(** C1, as the code has it.  For a message that is neither a Signer Add nor
    a Signer Remove and whose account has a custody address (step 1 passed),
    if the signer store does not hold the message's signer key for the
    account ([getSignerAdd] rejects), validation returns the error
    "invalid signer" after exactly the custody and the signer lookups;
    [mergeMessage] returns the same error and calls no store's merge.  For a
    Signer Add or Signer Remove the signer lookup is not made: after the
    custody lookup the schema/signature validator runs directly. *)
Theorem validate_signer_membership {W : Type} (h : Handler W) (w w1 : W)
    (m : Message) (source : option string) (a : bytes) :
  h _ (custodyLookup m) w = (Resolved a, w1) ->
  (isSignerAdd m = false -> isSignerRemove m = false ->
   forall (reason : HubError) (w2 : W),
     h _ (signerLookup m) w1 = (Rejected reason, w2) ->
     run h (validateMessage m) w =
       mkOutcome (Resolved (Err (bad_request "invalid signer"))) w2
                 [event (custodyLookup m); event (signerLookup m)] /\
     run h (mergeMessage m source) w =
       mkOutcome (Resolved (Err (bad_request "invalid signer"))) w2
                 [event (custodyLookup m); event (signerLookup m)] /\
     merges (trace (run h (mergeMessage m source) w)) = []) /\
  (isSignerAdd m = true \/ isSignerRemove m = true ->
   run h (validateMessage m) w =
     mkOutcome (fst (h _ (schemaCheck m) w1)) (snd (h _ (schemaCheck m) w1))
               [event (custodyLookup m); event (schemaCheck m)]).
Proof.
  intros C. split.
  - intros A R reason w2 S.
    pose proof (validate_invalid_signer h m w w1 w2 a reason A R C S) as V.
    assert (G : run h (mergeMessage m source) w =
                mkOutcome (Resolved (Err (bad_request "invalid signer"))) w2
                          [event (custodyLookup m); event (signerLookup m)]).
    { rewrite (mergeMessage_validation_failed h m source w (bad_request "invalid signer"));
        rewrite V; reflexivity. }
    split; [exact V|]. split; [exact G|]. rewrite G. reflexivity.
  - intros S. exact (validate_signer_message h m w w1 a S C).
Qed.

(** Alice is registered, but [strangerKey] is not one of her signers. *)
Lemma validate_signer_membership_witness :
  run (memHandler returningValidator) (mergeMessage (castBy alice strangerKey h1) None) world0 =
  mkOutcome (Resolved (Err (bad_request "invalid signer"))) world0
            [event (custodyLookup (castBy alice strangerKey h1));
             event (signerLookup (castBy alice strangerKey h1))].
Proof.
  destruct (validate_signer_membership (memHandler returningValidator) world0 world0
              (castBy alice strangerKey h1) None aliceAddress eq_refl) as [H _].
  destruct (H eq_refl eq_refl not_found world0 eq_refl) as [_ [G _]].
  exact G.
Defined.

(** C1 as stated fails when the account has no custody address: the cast
    below is not a signer message and its key is not an active signer of
    the account, yet validation answers "unknown user", not
    "invalid signer". *)
Lemma validate_signer_membership_counterexample :
  let m := castBy bob strangerKey h1 in
  let h := memHandler returningValidator in
  isSignerAdd m = false /\ isSignerRemove m = false /\
  fst (h _ (signerLookup m) world0) = Rejected not_found /\
  result (run h (validateMessage m) world0) = Resolved (Err (bad_request "unknown user")) /\
  result (run h (validateMessage m) world0) <> Resolved (Err (bad_request "invalid signer")) /\
  result (run h (mergeMessage m None) world0) <> Resolved (Err (bad_request "invalid signer")).
Proof.
  cbv zeta. repeat split; try reflexivity; vm_compute; discriminate.
Qed.

(** ** The fname custody check *)




Section FnameCheckFacts.

Context {W : Type} (h : Handler W).





End FnameCheckFacts.




(** ** Validation only reads *)

Lemma checks_merge_nothing (tr : list Event) :
  Forall (fun e => is_check e = true) tr -> merges tr = [].
Proof.
  induction 1 as [|e tr He _ IH]; [reflexivity|].
  unfold merges in *. simpl. rewrite IH.
  destruct e as [X c]. destruct c; simpl in *; try discriminate; reflexivity.
Qed.

Ltac settle_calls h :=
  repeat match goal with
         | |- context [h ?X ?c ?w] =>
             let E := fresh "E" in
             destruct (h X c w) as [[?|?] ?] eqn:E; simpl
         | |- context [if ?c then _ else _] => destruct c; simpl
         | |- context [match ?c with _ => _ end] => destruct c; simpl
         end.

Lemma validate_trace_checks {W : Type} (h : Handler W) (m : Message) (w : W) :
  Forall (fun e => is_check e = true) (trace (run h (validateMessage m) w)).
Proof.
  unfold validateMessage, checkSigner, checkFname, await, call, fromPromise, ret.
  simpl. settle_calls h; repeat constructor.
Qed.

Lemma validate_merges_nothing {W : Type} (h : Handler W) (m : Message) (w : W) :
  merges (trace (run h (validateMessage m) w)) = [].
Proof. apply checks_merge_nothing, validate_trace_checks. Qed.

(** ** The merge router *)

Section RouterFacts.

Context {W : Type} (h : Handler W).

(** One store is called; its failure comes back as an error value and a
    success is logged. *)
Lemma run_mergeInto (s : StoreId) (m : Message) (source : string) (w : W) :
  run h (mergeInto s m source) w =
  match fst (h _ (Merge s m) w) with
  | Resolved u =>
      mkOutcome (Resolved (Ok u))
                (snd (h _ (mergeLog m source) (snd (h _ (Merge s m) w))))
                [event (Merge s m); event (mergeLog m source)]
  | Rejected e =>
      mkOutcome (Resolved (Err e)) (snd (h _ (Merge s m) w)) [event (Merge s m)]
  end.
Proof.
  unfold mergeInto, mergeLog, fromPromise, call, ret. simpl.
  destruct (h _ (Merge s m) w) as [[u|e] w1]; simpl; [|reflexivity].
  destruct (h _ (logger_info _) w1); reflexivity.
Qed.

Lemma mergeInto_merges (s : StoreId) (m : Message) (source : string) (w : W) :
  merges (trace (run h (mergeInto s m source) w)) = [(s, m)].
Proof.
  rewrite run_mergeInto. destruct (fst (h _ (Merge s m) w)); reflexivity.
Qed.

Lemma mergeInto_settles (s : StoreId) (m : Message) (source : string) (w : W) :
  exists r, result (run h (mergeInto s m source) w) = Resolved r.
Proof.
  rewrite run_mergeInto. destruct (fst (h _ (Merge s m) w)); eexists; reflexivity.
Qed.

(** What [mergeMessage] does once validation has succeeded. *)
Lemma mergeMessage_validated (m m' : Message) (source : option string) (w : W) :
  result (run h (validateMessage m) w) = Resolved (Ok m') ->
  run h (mergeMessage m source) w =
  let v := run h (validateMessage m) w in
  match storeOf (setPostfix m) with
  | Some s =>
      let o := run h (mergeInto s m (default_source source)) (final v) in
      mkOutcome (result o) (final o) (trace v ++ trace o)
  | None =>
      mkOutcome (Resolved (Err (bad_request "invalid message type"))) (final v) (trace v)
  end.
Proof.
  intros H. unfold mergeMessage. rewrite run_await. cbv zeta. rewrite H.
  destruct (setPostfix m); simpl; try reflexivity.
  now rewrite app_nil_r.
Qed.

(** Whatever validation says, [mergeMessage] merges nothing or merges the
    message into the store of its category. *)
Lemma mergeMessage_merges (m : Message) (source : option string) (w : W) :
  merges (trace (run h (mergeMessage m source) w)) =
  match result (run h (validateMessage m) w), storeOf (setPostfix m) with
  | Resolved (Ok _), Some s => [(s, m)]
  | _, _ => []
  end.
Proof.
  destruct (result (run h (validateMessage m) w)) as [[m'|e]|e] eqn:V.
  - rewrite (mergeMessage_validated m m' source w V). cbv zeta.
    destruct (storeOf (setPostfix m)) as [s|]; cbn [trace].
    + rewrite merges_app, validate_merges_nothing, mergeInto_merges. reflexivity.
    + apply validate_merges_nothing.
  - rewrite (mergeMessage_validation_failed h m source w e V). cbn [trace].
    apply validate_merges_nothing.
  - unfold mergeMessage. rewrite run_await. cbv zeta. rewrite V. cbn [trace].
    apply validate_merges_nothing.
Qed.

End RouterFacts.

(** C5.  When validation succeeds and the message's category
    ([setPostfix]) is none of the six, [mergeMessage] returns the error
    "invalid message type" (code [bad_request.validation_failure], the
    spec's RequestError) right after validation and calls no store's merge.
    When the category is one of the six, the only merge call is the one of
    that category's store, with the message itself; it is made exactly once
    when validation succeeds, followed by nothing but the log entry of a
    successful merge, and not at all otherwise. *)
Theorem mergeMessage_dispatch {W : Type} (h : Handler W) (w : W) (m : Message)
    (source : option string) :
  let v := run h (validateMessage m) w in
  let g := run h (mergeMessage m source) w in
  (forall m', result v = Resolved (Ok m') ->
     match storeOf (setPostfix m) with
     | None =>
         g = mkOutcome (Resolved (Err (bad_request "invalid message type")))
                       (final v) (trace v) /\
         merges (trace g) = []
     | Some s =>
         merges (trace g) = [(s, m)] /\
         (trace g = trace v ++ [event (Merge s m)] \/
          trace g = trace v ++ [event (Merge s m); event (mergeLog m (default_source source))])
     end) /\
  (forall s, storeOf (setPostfix m) = Some s ->
     merges (trace g) = [(s, m)] \/ merges (trace g) = []).
Proof.
  cbv zeta. split.
  - intros m' V.
    pose proof (mergeMessage_merges h m source w) as M. rewrite V in M.
    pose proof (mergeMessage_validated h m m' source w V) as G. cbv zeta in G.
    destruct (storeOf (setPostfix m)) as [s|].
    + split; [exact M|]. rewrite G. cbn [trace]. rewrite run_mergeInto.
      destruct (fst (h _ (Merge s m) (final (run h (validateMessage m) w))));
        cbn [trace]; auto.
    + split; [exact G | exact M].
  - intros s S. rewrite mergeMessage_merges, S.
    destruct (result (run h (validateMessage m) w)) as [[m'|e]|e]; auto.
Qed.

(** A valid cast of Alice goes to the cast store; the same message with a
    tag outside the six categories goes nowhere. *)
Lemma mergeMessage_dispatch_witness :
  merges (trace (run (memHandler returningValidator)
                     (mergeMessage (castBy alice aliceKey h1) None) world0)) =
    [(CastStore, castBy alice aliceKey h1)] /\
  result (run (memHandler returningValidator)
              (mergeMessage (mkMessage alice aliceKey h1 CastAdd (UserPostfix_other 99) OtherBody)
                            None) world0) =
    Resolved (Err (bad_request "invalid message type")).
Proof.
  split.
  - destruct (mergeMessage_dispatch (memHandler returningValidator) world0
                (castBy alice aliceKey h1) None) as [H _].
    destruct (H (castBy alice aliceKey h1) eq_refl) as [G _]. exact G.
  - destruct (mergeMessage_dispatch (memHandler returningValidator) world0
                (mkMessage alice aliceKey h1 CastAdd (UserPostfix_other 99) OtherBody) None)
      as [H _].
    destruct (H _ eq_refl) as [G _]. rewrite G. reflexivity.
Defined.

(** ** Batches *)

Section BatchFacts.

Context {W : Type} (h : Handler W).

Lemma checkFname_settled (m : Message) (k : Async (HubResult Message)) :
  no_fault h -> settled h k -> settled h (checkFname m k).
Proof.
  intros [F1 [F2 _]] K w. unfold checkFname.
  destruct (isUserDataAdd m); [|apply K].
  destruct (body m) as [[|tag] value| |]; try apply K.
  destruct (0 <? _)%nat; [|apply K].
  rewrite run_await, run_call. cbv zeta. cbn [result final trace].
  destruct (F1 (fid m) w) as [ev1 E1]. rewrite E1.
  rewrite run_await, run_call. cbv zeta. cbn [result final trace].
  destruct (F2 (TextEncoder_encode match value with Some v => v | None => "" end)
               (snd (h _ (Read (IdRegistryEventModel_get (fid m))) w))) as [ev2 E2].
  rewrite E2.
  destruct (negb _).
  - eexists. reflexivity.
  - cbn [result]. apply K.
Qed.

Lemma checkSigner_settled (m : Message) (k : Async (HubResult Message)) :
  settled h k -> settled h (checkSigner m k).
Proof.
  intros K w. unfold checkSigner.
  destruct (negb (isSignerAdd m) && negb (isSignerRemove m)); [|apply K].
  rewrite run_bind. cbv zeta.
  destruct (isErr _).
  - eexists. reflexivity.
  - cbn [result]. apply K.
Qed.

Lemma validateMessage_settled (m : Message) : no_fault h -> settled h (validateMessage m).
Proof.
  intros F w. unfold validateMessage. rewrite run_bind. cbv zeta.
  destruct (isErr _).
  - eexists. reflexivity.
  - cbn [result]. apply checkSigner_settled, checkFname_settled; [exact F|].
    intros w'. rewrite run_call. cbn [result].
    destruct F as [_ [_ F3]]. apply F3.
Qed.

Lemma mergeMessage_settled (m : Message) (source : option string) :
  no_fault h -> settled h (mergeMessage m source).
Proof.
  intros F w.
  destruct (validateMessage_settled m F w) as [[m'|e] V].
  - rewrite (mergeMessage_validated h m m' source w V). cbv zeta.
    destruct (storeOf (setPostfix m)) as [s|]; cbn [result].
    + apply mergeInto_settles.
    + eexists. reflexivity.
  - rewrite (mergeMessage_validation_failed h m source w e V). eexists. reflexivity.
Qed.

Lemma mergedInOrder_exists (source : string) (msgs : list Message) :
  no_fault h -> forall w, exists rs w' tr, MergedInOrder h source w msgs rs w' tr.
Proof.
  intros F. induction msgs as [|m ms IH]; intros w.
  - exists [], w, []. constructor.
  - destruct (mergeMessage_settled m (Some source) F w) as [r R].
    destruct (IH (final (run h (mergeMessage m (Some source)) w))) as [rs [w' [tr M]]].
    exists (r :: rs), w', (trace (run h (mergeMessage m (Some source)) w) ++ tr).
    now constructor.
Qed.

Lemma mergedInOrder_length (source : string) (w w' : W) (msgs : list Message)
      (rs : list (HubResult unit)) (tr : list Event) :
  MergedInOrder h source w msgs rs w' tr -> List.length rs = List.length msgs.
Proof. induction 1; simpl; congruence. Qed.

(** The loop returns the results pushed so far followed by one result per
    remaining message. *)
Lemma mergeMessages_loop_run (source : string) (w w' : W) (msgs : list Message)
      (rs : list (HubResult unit)) (tr : list Event) :
  MergedInOrder h source w msgs rs w' tr ->
  forall results,
    run h (mergeMessages_loop msgs source results) w =
    mkOutcome (Resolved (results ++ rs)) w' tr.
Proof.
  induction 1 as [w | w w' m ms r rs tr R M IH]; intros results.
  - simpl. now rewrite app_nil_r.
  - cbn [mergeMessages_loop]. rewrite run_await. cbv zeta. rewrite R.
    rewrite IH. cbn [result final trace].
    rewrite <- app_assoc. reflexivity.
Qed.

(** A fault in one message ends the loop: nothing is returned for the
    batch and the remaining messages are not looked at. *)
Lemma mergeMessages_loop_fault (source : string) (w : W) (m : Message)
      (rest : list Message) (results : list (HubResult unit)) (e : HubError) :
  result (run h (mergeMessage m (Some source)) w) = Rejected e ->
  run h (mergeMessages_loop (m :: rest) source results) w =
  mkOutcome (Rejected e) (final (run h (mergeMessage m (Some source)) w))
            (trace (run h (mergeMessage m (Some source)) w)).
Proof.
  intros R. cbn [mergeMessages_loop]. rewrite run_await. cbv zeta. rewrite R. reflexivity.
Qed.

End BatchFacts.

(** With collaborators whose directly awaited calls never raise a fault,
    [mergeMessages] returns one result per message, in input order. *)
Lemma mergeMessages_without_faults {W : Type} (h : Handler W) (w : W)
    (messages : list Message) (source : option string) :
  no_fault h ->
  exists rs : list (HubResult unit),
    result (run h (mergeMessages messages source) w) = Resolved rs /\
    List.length rs = List.length messages /\
    MergedInOrder h (default_source source) w messages rs
                  (final (run h (mergeMessages messages source) w))
                  (trace (run h (mergeMessages messages source) w)).
Proof.
  intros F.
  destruct (mergedInOrder_exists h (default_source source) messages F w) as [rs [w' [tr M]]].
  exists rs. unfold mergeMessages.
  rewrite (mergeMessages_loop_run h (default_source source) w w' messages rs tr M []).
  cbn [result final trace app].
  split; [reflexivity|]. split; [|exact M].
  exact (mergedInOrder_length h _ _ _ _ _ _ M).
Qed.

Lemma memHandler_returning_no_fault : no_fault (memHandler returningValidator).
Proof.
  repeat split; intros x w; simpl.
  - eexists; reflexivity.
  - eexists; reflexivity.
  - unfold returningValidator. destruct (hash x); eexists; reflexivity.
Qed.

(** Batch isolation on [batch]: the results are ok, error, ok, and the
    store holds the first and the third message. *)
Example mergeMessages_isolation :
  let o := run (memHandler returningValidator) (mergeMessages batch None) world0 in
  result o = Resolved [Ok tt; Err (bad_request "invalid hash"); Ok tt] /\
  stored (final o) = [(CastStore, castBy alice aliceKey h1); (CastStore, castBy alice aliceKey h2)].
Proof. split; reflexivity. Qed.

(** ** Validation is a check *)

Section CheckFacts.

Context {W : Type} (h : Handler W).

Lemma checks_frame {R : Type} (p : Prog R) :
  checks_preserve h ->
  forall w, Forall (fun e => is_check e = true) (trace (run h p w)) ->
            final (run h p w) = w.
Proof.
  intros P. induction p as [r | X c k IH]; intros w F.
  - reflexivity.
  - rewrite run_Vis in *. cbv zeta in *. cbn [trace final] in *.
    inversion F as [|e tr He Ft]; subst.
    rewrite (P _ c w He) in *. now apply IH.
Qed.

Lemma validate_ok_from_validator (m m' : Message) (w : W) :
  result (run h (validateMessage m) w) = Resolved (Ok m') ->
  exists w', fst (h _ (validations_validateMessage m) w') = Resolved (Ok m').
Proof.
  unfold validateMessage, checkSigner, checkFname, await, call, fromPromise, ret.
  simpl. settle_calls h; intros H; try discriminate;
    match goal with
    | E : h _ (validations_validateMessage m) ?w' = _ |- _ =>
        exists w'; rewrite E; exact H
    end.
Qed.

End CheckFacts.

(** C9.  [validateMessage] is a check.  Every call it makes is a lookup (a
    store or registry getter) or the schema/signature validator: it calls no
    merge, no revoke, no registry-event merge, no commit.  Hence, with
    collaborators whose lookups and validator change nothing, the state
    after validation is the state before it.  When validation succeeds the
    message it returns is the one the validator returned, which is the
    input message for a validator that hands back what it is given. *)
Theorem validateMessage_pure {W : Type} (h : Handler W) (w : W) (m : Message) :
  Forall (fun e => is_check e = true) (trace (run h (validateMessage m) w)) /\
  merges (trace (run h (validateMessage m) w)) = [] /\
  (checks_preserve h -> final (run h (validateMessage m) w) = w) /\
  (validator_returns_input h ->
   forall m', result (run h (validateMessage m) w) = Resolved (Ok m') -> m' = m).
Proof.
  split; [apply validate_trace_checks|].
  split; [apply validate_merges_nothing|].
  split.
  - intros P. apply checks_frame; [exact P | apply validate_trace_checks].
  - intros V m' H.
    destruct (validate_ok_from_validator h m m' w H) as [w' E].
    exact (V m m' w' E).
Qed.

Lemma memHandler_checks_preserve validator : checks_preserve (memHandler validator).
Proof.
  intros X c w. destruct c; simpl; intros H; try discriminate; reflexivity.
Qed.

Lemma returningValidator_returns_input : validator_returns_input (memHandler returningValidator).
Proof.
  intros m m' w. simpl. unfold returningValidator.
  destruct (hash m); intros H; inversion H; reflexivity.
Qed.

Lemma validateMessage_pure_witness :
  final (run (memHandler returningValidator) (validateMessage (castBy alice aliceKey h1)) world0)
    = world0 /\
  (forall m',
      result (run (memHandler returningValidator)
                  (validateMessage (castBy alice aliceKey h1)) world0) = Resolved (Ok m') ->
      m' = castBy alice aliceKey h1).
Proof.
  destruct (validateMessage_pure (memHandler returningValidator) world0
              (castBy alice aliceKey h1)) as [_ [_ [F R]]].
  split.
  - exact (F (memHandler_checks_preserve returningValidator)).
  - exact (R returningValidator_returns_input).
Defined.

(** ** Registry events *)

(** C8.  [mergeIdRegistryEvent] accepts exactly the kinds Register and
    Transfer and [mergeNameRegistryEvent] exactly Transfer and Renew.  An
    accepted event is logged and handed to the signer store (custody) or to
    the user-data store (name), whose failure comes back as an error value.
    For any other kind the error "invalid event type" (code
    [bad_request.validation_failure], the spec's RequestError) is returned
    and no call at all is made. *)
Theorem registry_events_accepted {W : Type} (h : Handler W) (w : W)
    (source : option string) :
  (forall ev : IdRegistryEvent,
     match id_type ev with
     | IdRegistryRegister | IdRegistryTransfer =>
         let lg := logger_info (Log_mergeIdRegistryEvent (id_type ev) (default_source source)) in
         let st := h _ (signerStore_mergeIdRegistryEvent ev) (snd (h _ lg w)) in
         run h (mergeIdRegistryEvent ev source) w =
         mkOutcome (Resolved match fst st with Resolved u => Ok u | Rejected e => Err e end)
                   (snd st)
                   [event lg; event (signerStore_mergeIdRegistryEvent ev)]
     | IdRegistryEventType_other _ =>
         run h (mergeIdRegistryEvent ev source) w =
         mkOutcome (Resolved (Err (bad_request "invalid event type"))) w []
     end) /\
  (forall ev : NameRegistryEvent,
     match name_type ev with
     | NameRegistryTransfer | NameRegistryRenew =>
         let lg := logger_info (Log_mergeNameRegistryEvent (name_type ev) (default_source source)) in
         let st := h _ (userDataStore_mergeNameRegistryEvent ev) (snd (h _ lg w)) in
         run h (mergeNameRegistryEvent ev source) w =
         mkOutcome (Resolved match fst st with Resolved u => Ok u | Rejected e => Err e end)
                   (snd st)
                   [event lg; event (userDataStore_mergeNameRegistryEvent ev)]
     | NameRegistryEventType_other _ =>
         run h (mergeNameRegistryEvent ev source) w =
         mkOutcome (Resolved (Err (bad_request "invalid event type"))) w []
     end).
Proof.
  split; intros ev.
  - unfold mergeIdRegistryEvent, fromPromise, call, ret.
    destruct (id_type ev); simpl; try reflexivity;
      destruct (h _ (logger_info _) w) as [u w1]; simpl;
      destruct (h _ (signerStore_mergeIdRegistryEvent ev) w1) as [[x|e] w2]; reflexivity.
  - unfold mergeNameRegistryEvent, fromPromise, call, ret.
    destruct (name_type ev); simpl; try reflexivity;
      destruct (h _ (logger_info _) w) as [u w1]; simpl;
      destruct (h _ (userDataStore_mergeNameRegistryEvent ev) w1) as [[x|e] w2]; reflexivity.
Qed.

Example registry_events_run :
  let h := memHandler returningValidator in
  custody (final (run h (mergeIdRegistryEvent (mkIdRegistryEvent IdRegistryTransfer bob bobAddress)
                                              None) world0))
    = [(bob, bobAddress); (alice, aliceAddress)] /\
  run h (mergeIdRegistryEvent (mkIdRegistryEvent (IdRegistryEventType_other 7) bob bobAddress)
                              None) world0
    = mkOutcome (Resolved (Err (bad_request "invalid event type"))) world0 [] /\
  run h (mergeNameRegistryEvent (mkNameRegistryEvent (NameRegistryEventType_other 0) [] bobAddress)
                                None) world0
    = mkOutcome (Resolved (Err (bad_request "invalid event type"))) world0 [].
Proof. repeat split. Qed.

(** ** Revocation *)

Section RevokeFacts.

Context {W : Type} (h : Handler W).

(** The only value [revokeMessagesBySigner] ever returns is [ok]; it has
    no path that returns an error value. *)
Lemma revoke_never_returns_err (fid signer : bytes) (w : W) (e : HubError) :
  result (run h (revokeMessagesBySigner fid signer) w) <> Resolved (Err e).
Proof.
  unfold revokeMessagesBySigner, await, call, ret. simpl.
  settle_calls h; discriminate.
Qed.

(** A rejected revoke of the first store: the function's own promise is
    rejected and the other five stores are not called. *)
Lemma revoke_first_store_fails (fid signer : bytes) (w w1 : W) (reason : HubError) :
  h _ (Revoke CastStore fid signer) w = (Rejected reason, w1) ->
  run h (revokeMessagesBySigner fid signer) w =
  mkOutcome (Rejected reason) w1 [event (Revoke CastStore fid signer)].
Proof.
  intros H. unfold revokeMessagesBySigner, await, call, ret. simpl. rewrite H. reflexivity.
Qed.

(** What the stores' revokes return is dropped: as long as their promises
    are fulfilled, with a success or with an error value, all six stores
    are called and [ok] is returned. *)
Lemma revoke_ignores_returned_errors (fid signer : bytes) (w : W) :
  (forall s, settles h (Revoke s fid signer)) ->
  result (run h (revokeMessagesBySigner fid signer) w) = Resolved (Ok tt) /\
  trace (run h (revokeMessagesBySigner fid signer) w) =
    map (fun s => event (Revoke s fid signer)) revokeOrder.
Proof.
  intros S. unfold revokeMessagesBySigner, await, call, ret. simpl.
  repeat match goal with
         | |- context [h ?X (Revoke ?s fid signer) ?w] =>
             let E := fresh "E" in
             destruct (S s w) as [? E];
             destruct (h X (Revoke s fid signer) w) as [[?|?] ?];
             simpl in E; try discriminate E; clear E; simpl
         end.
  split; reflexivity.
Qed.

End RevokeFacts.

(** C3 at a failing store.  [revokeMessagesBySigner] never returns an error
    value.  When the reaction store's revoke fails, the promise of
    [revokeMessagesBySigner] is rejected with the store's error: the
    verification, user-data and signer stores are not called, the cast
    store stays revoked, and the caller gets no tagged result but a thrown
    fault. *)
Theorem revokeMessagesBySigner_store_failure :
  (forall (W : Type) (h : Handler W) (w : W) (fid signer : bytes) (e : HubError),
     result (run h (revokeMessagesBySigner fid signer) w) <> Resolved (Err e)) /\
  let o := run (memHandler returningValidator) (revokeMessagesBySigner alice aliceKey)
               world_reactions_down in
  result o = Rejected storage_failure /\
  trace o = [event (Revoke CastStore alice aliceKey); event (Revoke FollowStore alice aliceKey);
             event (Revoke ReactionStore alice aliceKey)] /\
  stored (final o) = [(ReactionStore, mkMessage alice aliceKey h2 ReactionAdd ReactionMessage OtherBody)].
Proof.
  split.
  - intros W h w fid signer e. apply revoke_never_returns_err.
  - cbv zeta. repeat split.
Qed.

(** ** Query surface *)

Section QueryFacts.

Context (V : Validations) {W : Type} (h : Handler W) (w : W).

(** The thirteen accessors that check the account id do so first. *)
Lemma fid_checked_first (fid : bytes) (e : HubError) :
  validateFid V fid = Err e ->
  (forall tsHash, fails_fast h w (getCast V fid tsHash) e) /\
  fails_fast h w (getCastsByFid V fid) e /\
  (forall user, fails_fast h w (getFollow V fid user) e) /\
  fails_fast h w (getFollowsByFid V fid) e /\
  (forall type cast, fails_fast h w (getReaction V fid type cast) e) /\
  (forall type, fails_fast h w (getReactionsByFid V fid type) e) /\
  (forall address, fails_fast h w (getVerification V fid address) e) /\
  fails_fast h w (getVerificationsByFid V fid) e /\
  (forall signerPubKey, fails_fast h w (getSigner V fid signerPubKey) e) /\
  fails_fast h w (getSignersByFid V fid) e /\
  fails_fast h w (getCustodyEvent V fid) e /\
  (forall type, fails_fast h w (getUserData V fid type) e) /\
  fails_fast h w (getUserDataByFid V fid) e.
Proof.
  intros H. unfold fails_fast, getCast, getCastsByFid, getFollow, getFollowsByFid,
    getReaction, getReactionsByFid, getVerification, getVerificationsByFid, getSigner,
    getSignersByFid, getCustodyEvent, getUserData, getUserDataByFid.
  rewrite H. repeat split.
Qed.

(** The second and third key arguments are checked before the store is
    read as well. *)
Lemma other_keys_checked_first (e : HubError) :
  (forall fid tsHash, validateTsHash V tsHash = Err e ->
                      exists e', fails_fast h w (getCast V fid tsHash) e') /\
  (forall parent, validateCastId V parent = Err e -> fails_fast h w (getCastsByParent V parent) e) /\
  (forall user, validateUserId V user = Err e -> fails_fast h w (getCastsByMention V user) e) /\
  (forall fid user, validateUserId V user = Err e ->
                    exists e', fails_fast h w (getFollow V fid user) e') /\
  (forall user, validateUserId V user = Err e -> fails_fast h w (getFollowsByUser V user) e) /\
  (forall fid type cast, validateReactionType V type = Err e ->
                         exists e', fails_fast h w (getReaction V fid type cast) e') /\
  (forall fid type cast, validateCastId V cast = Err e ->
                         exists e', fails_fast h w (getReaction V fid type cast) e') /\
  (forall cast type, validateCastId V cast = Err e ->
                     fails_fast h w (getReactionsByCast V cast type) e) /\
  (forall fid address, validateEthAddress V address = Err e ->
                       exists e', fails_fast h w (getVerification V fid address) e') /\
  (forall fid key, validateEd25519PublicKey V key = Err e ->
                   exists e', fails_fast h w (getSigner V fid key) e').
Proof.
  unfold fails_fast, getCast, getCastsByParent, getCastsByMention, getFollow,
    getFollowsByUser, getReaction, getReactionsByCast, getVerification, getSigner.
  repeat split; intros;
    repeat match goal with
           | H : ?x = Err _ |- context [?x] => rewrite H
           | |- context [match ?x with Ok _ => _ | Err _ => _ end] => destruct x
           end; try reflexivity; eexists; reflexivity.
Qed.

(** The "all messages" accessors read the store with the account id as
    it was given: the first call is the read of the adds, whatever the
    id is. *)
Lemma readAddsAndRemoves_reads (getAdds getRemoves : StoreRead (list Message)) :
  exists tr, trace (run h (readAddsAndRemoves getAdds getRemoves) w) =
             event (Read getAdds) :: tr.
Proof.
  unfold readAddsAndRemoves, fromPromise, call. simpl.
  destruct (h _ (Read getAdds) w) as [x w1]. simpl.
  eexists. reflexivity.
Qed.

End QueryFacts.

(** C7 at an accessor that does not validate.  With an account id that
    [validateFid] refuses, [getCastsByFid] fails fast without touching the
    store, but [getAllCastMessagesByFid] reads the cast store twice with
    that id and returns a success.  For every handler and every id, the
    first thing each of the five "all messages" accessors does is a store
    read. *)
Theorem getAllMessagesByFid_unvalidated :
  let V := sampleValidations in
  let h := memHandler returningValidator in
  validateFid V [] = Err (bad_request "fid is missing") /\
  run h (getCastsByFid V []) world0 =
    mkOutcome (Resolved (Err (bad_request "fid is missing"))) world0 [] /\
  run h (getAllCastMessagesByFid []) world0 =
    mkOutcome (Resolved (Ok [])) world0
      [event (Read (castStore_getCastAddsByUser [])); event (Read (castStore_getCastRemovesByUser []))] /\
  (forall (W : Type) (h : Handler W) (w : W) (fid : bytes),
     (exists tr, trace (run h (getAllCastMessagesByFid fid) w) =
                 event (Read (castStore_getCastAddsByUser fid)) :: tr) /\
     (exists tr, trace (run h (getAllFollowMessagesByFid fid) w) =
                 event (Read (followStore_getFollowAddsByUser fid)) :: tr) /\
     (exists tr, trace (run h (getAllReactionMessagesByFid fid) w) =
                 event (Read (reactionStore_getReactionAddsByUser fid None)) :: tr) /\
     (exists tr, trace (run h (getAllVerificationMessagesByFid fid) w) =
                 event (Read (verificationStore_getVerificationAddsByUser fid)) :: tr) /\
     (exists tr, trace (run h (getAllSignerMessagesByFid fid) w) =
                 event (Read (signerStore_getSignerAddsByUser fid)) :: tr)).
Proof.
  cbv zeta. split; [reflexivity|]. split; [reflexivity|]. split; [reflexivity|].
  intros W h w fid. repeat split; apply readAddsAndRemoves_reads.
Qed.

(* ===================================================================== *)
(** * Part III. Further properties *)
(* ===================================================================== *)

(** ** [bytes32ToBytes]: padding *)

Lemma dropLast2_app00 (p : string) : dropLast2 (p ++ "00")%string = p.
Proof.
  rewrite dropLast2_unfold by (rewrite string_app_length; simpl; lia).
  rewrite string_app_length. simpl String.length.
  replace (String.length p + 2 - 2) with (String.length p) by lia.
  apply substring_app_left.
Qed.

Lemma stripPadding_app00 (p : string) : stripPadding (p ++ "00")%string = stripPadding p.
Proof.
  rewrite stripPadding_iterate by apply endsWith00_app.
  now rewrite dropLast2_app00.
Qed.

Lemma stripPadding_zeros (s : string) (k : nat) :
  stripPadding (s ++ zeros k)%string = stripPadding s.
Proof.
  induction k as [|k IH].
  - simpl. now rewrite string_app_nil_r.
  - rewrite <- zeros_snoc, <- string_app_assoc, stripPadding_app00. exact IH.
Qed.

Lemma string_of_uint_revapp (a c : uint) :
  NilEmpty.string_of_uint (revapp a c) =
  (NilEmpty.string_of_uint (revapp a Nil) ++ NilEmpty.string_of_uint c)%string.
Proof.
  revert c; induction a; intros c; simpl; try reflexivity;
    rewrite IHa; symmetry; rewrite IHa; rewrite string_app_assoc; reflexivity.
Qed.

Lemma string_of_uint_app (u v : uint) :
  NilEmpty.string_of_uint (app u v) =
  (NilEmpty.string_of_uint u ++ NilEmpty.string_of_uint v)%string.
Proof.
  unfold app. rewrite string_of_uint_revapp.
  change (revapp (rev u) Nil) with (rev (rev u)). now rewrite HexadecimalFacts.rev_rev.
Qed.


Lemma string_of_iter_D0 (n : nat) :
  NilEmpty.string_of_uint (Nat.iter n D0 Nil) = zeroDigits n.
Proof. induction n as [|n IH]; simpl; [reflexivity | now rewrite IH]. Qed.

Lemma zeroDigits_double (k : nat) : zeroDigits (2 * k) = zeros k.
Proof.
  induction k as [|k IH]; [reflexivity|].
  replace (2 * S k) with (S (S (2 * k))) by lia.
  change (zeros (S k)) with (String "0" (String "0" (zeros k))).
  cbn [zeroDigits]. now rewrite IH.
Qed.

Lemma NilZero_nonnil (u : uint) :
  u <> Nil -> NilZero.string_of_uint u = NilEmpty.string_of_uint u.
Proof. destruct u; intros H; try reflexivity. now elim H. Qed.

Lemma to_hex_uint_unorm (p : positive) : unorm (Pos.to_hex_uint p) = Pos.to_hex_uint p.
Proof.
  rewrite <- (HexadecimalPos.Unsigned.to_of (Pos.to_hex_uint p)).
  rewrite HexadecimalPos.Unsigned.of_to. reflexivity.
Qed.

Lemma unorm_app_to_hex_uint (p : positive) (v : uint) :
  unorm (app (Pos.to_hex_uint p) v) = app (Pos.to_hex_uint p) v.
Proof.
  destruct (Nat.le_gt_cases (nb_digits (unorm (app (Pos.to_hex_uint p) v))) (nb_digits v))
    as [L|L].
  - apply HexadecimalFacts.unorm_app_zero in L. rewrite to_hex_uint_unorm in L.
    now apply HexadecimalPos.Unsigned.to_uint_nonzero in L.
  - rewrite (HexadecimalFacts.unorm_app_l _ _ L). now rewrite to_hex_uint_unorm.
Qed.

Lemma Z_of_hex_uint_to (p : positive) : Z.of_hex_uint (Pos.to_hex_uint p) = Z.pos p.
Proof.
  unfold Z.of_hex_uint. rewrite HexadecimalPos.Unsigned.of_to. reflexivity.
Qed.

Lemma iter_mul16_pos (n : nat) (p : positive) :
  exists q, Nat.iter n (Z.mul 16) (Z.pos p) = Z.pos q.
Proof.
  induction n as [|n [q IH]]; simpl; [now exists p|].
  rewrite IH. now exists (16 * q)%positive.
Qed.

Lemma to_hex_int_shift (p : positive) (n : nat) :
  Z.to_hex_int (Nat.iter n (Z.mul 16) (Z.pos p)) =
  Pos (app (Pos.to_hex_uint p) (Nat.iter n D0 Nil)).
Proof.
  rewrite <- (Z_of_hex_uint_to p), <- HexadecimalZ.of_hex_uint_iter_D0.
  change (Z.of_hex_uint (app (Pos.to_hex_uint p) (Nat.iter n D0 Nil)))
    with (Z.of_hex_int (Pos (app (Pos.to_hex_uint p) (Nat.iter n D0 Nil)))).
  rewrite HexadecimalZ.to_of. simpl. now rewrite unorm_app_to_hex_uint.
Qed.

Lemma app_nonnil (u v : uint) : u <> Nil -> app u v <> Nil.
Proof.
  intros H E. apply H.
  assert (L : HexadecimalFacts.to_list (app u v) = []) by now rewrite E.
  rewrite HexadecimalFacts.app_spec in L. apply List.app_eq_nil in L. destruct L as [L _].
  destruct u; simpl in L; try discriminate; reflexivity.
Qed.

Lemma toString16_shift_pos (p : positive) (n : nat) :
  toString16 (Nat.iter n (Z.mul 16) (Z.pos p)) =
  (toString16 (Z.pos p) ++ zeroDigits n)%string.
Proof.
  unfold toString16. rewrite to_hex_int_shift. simpl.
  rewrite !NilZero_nonnil.
  - now rewrite string_of_uint_app, string_of_iter_D0.
  - apply HexadecimalPos.Unsigned.to_uint_nonnil.
  - apply app_nonnil, HexadecimalPos.Unsigned.to_uint_nonnil.
Qed.

Lemma toString16_neg (p : positive) :
  toString16 (Z.neg p) = String "-" (toString16 (Z.pos p)).
Proof. reflexivity. Qed.

Lemma iter_mul16 (n : nat) (x : Z) : Nat.iter n (Z.mul 16) x = (x * 16 ^ Z.of_nat n)%Z.
Proof.
  induction n as [|n IH].
  - simpl. lia.
  - rewrite Nat2Z.inj_succ, Z.pow_succ_r by lia.
    change (Nat.iter (S n) (Z.mul 16) x) with (16 * Nat.iter n (Z.mul 16) x)%Z.
    rewrite IH. ring.
Qed.

Lemma toString16_shift (x : Z) (n : nat) :
  x <> 0%Z ->
  toString16 (x * 16 ^ Z.of_nat n) = (toString16 x ++ zeroDigits n)%string.
Proof.
  intros H. destruct x as [|p|p]; [now elim H| |].
  - rewrite <- iter_mul16. apply toString16_shift_pos.
  - replace (Z.neg p * 16 ^ Z.of_nat n)%Z with (- (Z.pos p * 16 ^ Z.of_nat n))%Z by lia.
    rewrite <- iter_mul16. destruct (iter_mul16_pos n p) as [q Q].
    pose proof (toString16_shift_pos p n) as S. rewrite Q in *.
    change (- Z.pos q)%Z with (Z.neg q). rewrite !toString16_neg, S. reflexivity.
Qed.

Lemma toString16_pad (x : Z) (k : nat) :
  x <> 0%Z ->
  toString16 (x * 256 ^ Z.of_nat k) = (toString16 x ++ zeros k)%string.
Proof.
  intros H. rewrite <- zeroDigits_double, <- toString16_shift by exact H.
  f_equal. f_equal. rewrite Nat2Z.inj_mul. change (Z.of_nat 2) with 2%Z.
  rewrite Z.pow_mul_r by lia. reflexivity.
Qed.

(** X1.  Right padding does not change the result: for every bigint [x]
    and every number [k] of zero bytes appended on the right (that is,
    [x * 256^k]), [bytes32ToBytes] hands [hexStringToBytes] the same string
    as for [x] itself. *)
Theorem bytes32ToBytes_padding (f : string -> HubResult bytes) (x : Z) (k : nat) :
  bytes32ToBytes f (x * 256 ^ Z.of_nat k) = bytes32ToBytes f x.
Proof.
  unfold bytes32ToBytes. destruct (Z.eq_dec x 0) as [->|H].
  - reflexivity.
  - cbv zeta. now rewrite toString16_pad, stripPadding_zeros.
Qed.

Lemma zeros_length (k : nat) : String.length (zeros k) = 2 * k.
Proof. induction k as [|k IH]; simpl in *; lia. Qed.

(** X2.  The padding-stripping loop, on any string: stripping twice is
    stripping once; trailing ["00"] groups appended to a string do not
    change what is left of it; and the loop removes an even number of
    characters, none when the string does not end with ["00"]. *)
Theorem stripPadding_absorbs (s : string) (k : nat) :
  stripPadding (stripPadding s) = stripPadding s /\
  stripPadding (s ++ zeros k)%string = stripPadding s /\
  (exists j, String.length s = String.length (stripPadding s) + 2 * j) /\
  (endsWith00 s = false -> stripPadding (s ++ zeros k)%string = s).
Proof.
  split; [|split; [|split]].
  - apply stripPadding_exit. apply stripPadding_spec.
  - apply stripPadding_zeros.
  - destruct (stripPadding_spec s) as [[j Hj] _]. exists j.
    rewrite Hj at 1. now rewrite string_app_length, zeros_length.
  - intros H. rewrite stripPadding_zeros. now apply stripPadding_exit.
Qed.

(** The first character of the hexadecimal representation. *)
Lemma to_hex_uint_head (p : positive) :
  Pos.to_hex_uint p <> Nil /\ forall u, Pos.to_hex_uint p <> D0 u.
Proof.
  split; [apply HexadecimalPos.Unsigned.to_uint_nonnil|].
  intros u E.
  assert (N : nzhead (Pos.to_hex_uint p) <> Nil).
  { intros N. apply HexadecimalFacts.unorm_0 in N. rewrite to_hex_uint_unorm in N.
    now apply HexadecimalPos.Unsigned.to_uint_nonzero in N. }
  pose proof (HexadecimalFacts.unorm_nzhead _ N) as U. rewrite to_hex_uint_unorm in U.
  apply (HexadecimalFacts.nzhead_nonzero (Pos.to_hex_uint p) u). now rewrite <- U.
Qed.

Lemma toString16_pos_head (p : positive) :
  exists c rest, toString16 (Z.pos p) = String c rest /\ c <> "0"%char.
Proof.
  destruct (to_hex_uint_head p) as [N Z0].
  unfold toString16. simpl. rewrite NilZero_nonnil by exact N.
  destruct (Pos.to_hex_uint p) as [|u|u|u|u|u|u|u|u|u|u|u|u|u|u|u|u];
    [now elim N | now elim (Z0 u) | ..];
    simpl; eexists; eexists; (split; [reflexivity | discriminate]).
Qed.

Lemma toString16_head (x : Z) :
  toString16 x = "0" \/ exists c rest, toString16 x = String c rest /\ c <> "0"%char.
Proof.
  destruct x as [|p|p].
  - left. reflexivity.
  - right. apply toString16_pos_head.
  - right. rewrite toString16_neg. eexists; eexists. split; [reflexivity | discriminate].
Qed.

(** X3.  The string [bytes32ToBytes] hands to [hexStringToBytes] is never
    empty: it starts with the first character of the hexadecimal
    representation (the sign, or the leading digit, which is ["0"] only for
    zero). *)
Theorem bytes32ToBytes_nonempty (x : Z) :
  exists c rest rest',
    toString16 x = String c rest /\ stripPadding (toString16 x) = String c rest'.
Proof.
  destruct (stripPadding_spec (toString16 x)) as [[k Hk] _].
  destruct (toString16_head x) as [H0 | [c [rest [H N]]]].
  - exists "0"%char, "", "". rewrite H0. split; reflexivity.
  - destruct (stripPadding (toString16 x)) as [|c' rest'] eqn:S.
    + exfalso. rewrite H in Hk. simpl in Hk.
      destruct k as [|k]; simpl in Hk; [discriminate|].
      injection Hk as Hc _. now elim N.
    + rewrite H in *. simpl in Hk. injection Hk as -> _.
      exists c', rest, rest'. split; reflexivity.
Qed.

(** ** Revocation: order and abort *)

Lemma revokeSeq_prefix {W : Type} (h : Handler W) (fid signer : bytes) (l : list StoreId) (w : W) :
  exists n, n <= List.length l /\
            trace (revokeSeq h fid signer l w) =
            map (fun s => event (Revoke s fid signer)) (firstn n l) /\
            (result (revokeSeq h fid signer l w) = Resolved (Ok tt) /\ n = List.length l \/
             exists e, result (revokeSeq h fid signer l w) = Rejected e /\ 1 <= n).
Proof.
  revert w; induction l as [|s l IH]; intros w.
  - exists 0. simpl. auto.
  - simpl. destruct (h _ (Revoke s fid signer) w) as [[r|e] w1].
    + destruct (IH w1) as [n [L [T R]]]. exists (S n). cbn [trace result firstn map].
      split; [lia|]. split; [now rewrite T|].
      destruct R as [[R N]|[e [R N]]]; [left | right].
      * split; [exact R | lia].
      * exists e. split; [exact R | lia].
    + exists 1. cbn [trace result firstn map]. split; [lia|]. split; [reflexivity|].
      right. exists e. split; [reflexivity | lia].
Qed.

(** X4.  [revokeMessagesBySigner] calls the stores' revoke in the order
    cast, follow, reaction, verification, user data, signer, each in the
    state the previous one left, and stops at the first rejected promise:
    the calls made are a non-empty prefix of that order; all six were made
    when it returns [ok], and otherwise its promise is rejected. *)
Theorem revokeMessagesBySigner_in_order {W : Type} (h : Handler W) (w : W)
    (fid signer : bytes) :
  run h (revokeMessagesBySigner fid signer) w = revokeSeq h fid signer revokeOrder w /\
  exists n, 1 <= n <= 6 /\
    trace (run h (revokeMessagesBySigner fid signer) w) =
      map (fun s => event (Revoke s fid signer)) (firstn n revokeOrder) /\
    (result (run h (revokeMessagesBySigner fid signer) w) = Resolved (Ok tt) /\ n = 6 \/
     exists e, result (run h (revokeMessagesBySigner fid signer) w) = Rejected e).
Proof.
  assert (E : run h (revokeMessagesBySigner fid signer) w =
              revokeSeq h fid signer revokeOrder w).
  { unfold revokeMessagesBySigner, revokeOrder, await, call, ret. simpl.
    repeat match goal with
           | |- context [h ?X (Revoke ?s fid signer) ?w] =>
               destruct (h X (Revoke s fid signer) w) as [[?|?] ?]; simpl; try reflexivity
           end. }
  split; [exact E|]. rewrite E.
  destruct (revokeSeq_prefix h fid signer revokeOrder w) as [n [L [T R]]].
  exists n. simpl in L. split.
  - destruct R as [[_ N]|[e [_ N]]]; simpl in N; lia.
  - split; [exact T|]. destruct R as [[R N]|[e [R _]]]; [left; now split | right; now exists e].
Qed.

(** X5.  What the stores' revokes return is dropped: when all six promises
    are fulfilled, whether with a success or with an error value,
    [revokeMessagesBySigner] calls all six stores and returns [ok]. *)
Theorem revokeMessagesBySigner_drops_results {W : Type} (h : Handler W) (w : W)
    (fid signer : bytes) :
  (forall s, settles h (Revoke s fid signer)) ->
  result (run h (revokeMessagesBySigner fid signer) w) = Resolved (Ok tt) /\
  trace (run h (revokeMessagesBySigner fid signer) w) =
    map (fun s => event (Revoke s fid signer)) revokeOrder.
Proof.
  intros S. exact (revoke_ignores_returned_errors h fid signer w S).
Qed.

(** The reaction store answers the revoke with an error value; the call
    goes on to the remaining stores and returns [ok]. *)
Lemma revokeMessagesBySigner_drops_results_witness :
  result (run (memHandlerReporting returningValidator) (revokeMessagesBySigner alice aliceKey)
              world_reactions_down) = Resolved (Ok tt) /\
  fst (memHandlerReporting returningValidator _ (Revoke ReactionStore alice aliceKey)
         world_reactions_down) = Resolved (Err storage_failure).
Proof.
  split; [|reflexivity].
  apply (revokeMessagesBySigner_drops_results (memHandlerReporting returningValidator)
           world_reactions_down alice aliceKey).
  intros s w. simpl. destruct (is_broken s w); eexists; reflexivity.
Defined.

(** ** The merge log *)

Lemma logs_app (t1 t2 : list Event) : logs (t1 ++ t2) = logs t1 ++ logs t2.
Proof. unfold logs. apply flat_map_app. Qed.

Lemma checks_log_nothing (tr : list Event) :
  Forall (fun e => is_check e = true) tr -> logs tr = [].
Proof.
  induction 1 as [|e tr He _ IH]; [reflexivity|].
  unfold logs in *. simpl. rewrite IH.
  destruct e as [X c]. destruct c; simpl in *; try discriminate; reflexivity.
Qed.

(** X6.  [mergeMessage] writes a log entry exactly when it returns [ok]:
    one entry, carrying the message's hash, account id and type and the
    source label (['unknown'] when none is given).  A failed validation, an
    unknown category, a failed store merge and a fault leave no entry. *)
Theorem mergeMessage_logs_success {W : Type} (h : Handler W) (w : W) (m : Message)
    (source : option string) :
  logs (trace (run h (mergeMessage m source) w)) =
  match result (run h (mergeMessage m source) w) with
  | Resolved (Ok _) => [Log_mergeMessage (hash m) (fid m) (type m) (default_source source)]
  | _ => []
  end.
Proof.
  pose proof (checks_log_nothing _ (validate_trace_checks h m w)) as V0.
  destruct (result (run h (validateMessage m) w)) as [[m'|e]|e] eqn:V.
  - rewrite (mergeMessage_validated h m m' source w V). cbv zeta.
    destruct (storeOf (setPostfix m)) as [s|]; cbn [trace result]; [|exact V0].
    rewrite logs_app, V0, run_mergeInto.
    destruct (fst (h _ (Merge s m) (final (run h (validateMessage m) w)))); reflexivity.
  - rewrite (mergeMessage_validation_failed h m source w e V). exact V0.
  - unfold mergeMessage. rewrite run_await. cbv zeta. rewrite V. exact V0.
Qed.

(** ** Which lookups validation makes *)

(** X7.  [validateMessage] looks into the id and name registries only for
    a UserData Fname-Add with a non-empty value, and looks up the signer
    only for a message that is neither a Signer Add nor a Signer Remove.
    Every call it makes is one of five: the custody lookup for the
    message's account, the signer lookup for its account and signer key,
    the id-registry lookup for its account, the name-registry lookup for
    its handle, and the validator on the message itself. *)
Theorem validateMessage_lookups_needed {W : Type} (h : Handler W) (w : W) (m : Message) :
  (existsb is_registry_lookup (trace (run h (validateMessage m) w)) = true ->
   isUserDataAdd m = true /\
   exists value, body m = UserDataBody Fname value /\ fnameOf value <> []) /\
  (existsb is_signer_lookup (trace (run h (validateMessage m) w)) = true ->
   isSignerAdd m = false /\ isSignerRemove m = false) /\
  Forall (fun e => In e [event (custodyLookup m); event (signerLookup m);
                         event (fidRegistryLookup m);
                         event (fnameRegistryLookup (fnameOfBody m));
                         event (schemaCheck m)])
         (trace (run h (validateMessage m) w)).
Proof.
  unfold validateMessage, checkSigner, checkFname, fnameOfBody, fnameOf, custodyLookup,
    signerLookup, fidRegistryLookup, fnameRegistryLookup, schemaCheck,
    await, call, fromPromise, ret.
  destruct (isSignerAdd m) eqn:SA; destruct (isSignerRemove m) eqn:SR;
    destruct (isUserDataAdd m) eqn:U;
    destruct (body m) as [[|t] value| |] eqn:B;
    try remember (TextEncoder_encode match value with Some v => v | None => "" end)
      as fname eqn:Fn;
    try destruct (0 <? List.length fname)%nat eqn:L;
    simpl; settle_calls h;
    (split;
     [ intros H; simpl in H; try discriminate H;
       split; auto; exists value; split; auto;
       rewrite <- Fn; intros N; rewrite N in L; discriminate L
     | split;
       [ intros H; simpl in H; try discriminate H; auto
       | repeat (apply Forall_cons; [simpl; tauto|]); apply Forall_nil ] ]).
Qed.

(** ** Faults of the registry lookups *)

Lemma mergeMessage_validation_fault {W : Type} (h : Handler W) (m : Message)
      (source : option string) (w : W) (e : HubError) :
  result (run h (validateMessage m) w) = Rejected e ->
  run h (mergeMessage m source) w =
  mkOutcome (Rejected e) (final (run h (validateMessage m) w))
            (trace (run h (validateMessage m) w)).
Proof.
  intros H. unfold mergeMessage. rewrite run_await. cbv zeta. rewrite H. reflexivity.
Qed.

Lemma validate_fid_registry_fault {W : Type} (h : Handler W) (w w1 w2 w3 : W)
    (m : Message) (value : option string) (a : bytes) (sa : Message) (e : HubError) :
  isUserDataAdd m = true -> body m = UserDataBody Fname value -> fnameOf value <> [] ->
  h _ (custodyLookup m) w = (Resolved a, w1) ->
  h _ (signerLookup m) w1 = (Resolved sa, w2) ->
  h _ (fidRegistryLookup m) w2 = (Rejected e, w3) ->
  run h (validateMessage m) w =
  mkOutcome (Rejected e) w3
    [event (custodyLookup m); event (signerLookup m); event (fidRegistryLookup m)].
Proof.
  intros U B E C S L1.
  destruct (isUserDataAdd_not_signer m U) as [A R].
  assert (L : (0 <? List.length (fnameOf value))%nat = true)
    by (destruct (fnameOf value); [congruence | reflexivity]).
  unfold validateMessage, checkSigner, checkFname, custodyLookup, signerLookup,
    fidRegistryLookup, fnameOf in *.
  simpl. rewrite C. simpl. rewrite A, R. simpl. rewrite S. simpl.
  rewrite U, B, L. unfold await, call. simpl. rewrite L1. reflexivity.
Qed.

Lemma validate_name_registry_fault {W : Type} (h : Handler W) (w w1 w2 w3 w4 : W)
    (m : Message) (value : option string) (a : bytes) (sa : Message)
    (ev1 : option IdRegistryEvent) (e : HubError) :
  isUserDataAdd m = true -> body m = UserDataBody Fname value -> fnameOf value <> [] ->
  h _ (custodyLookup m) w = (Resolved a, w1) ->
  h _ (signerLookup m) w1 = (Resolved sa, w2) ->
  h _ (fidRegistryLookup m) w2 = (Resolved ev1, w3) ->
  h _ (fnameRegistryLookup (fnameOf value)) w3 = (Rejected e, w4) ->
  run h (validateMessage m) w =
  mkOutcome (Rejected e) w4
    [event (custodyLookup m); event (signerLookup m); event (fidRegistryLookup m);
     event (fnameRegistryLookup (fnameOf value))].
Proof.
  intros U B E C S L1 L2.
  destruct (isUserDataAdd_not_signer m U) as [A R].
  assert (L : (0 <? List.length (fnameOf value))%nat = true)
    by (destruct (fnameOf value); [congruence | reflexivity]).
  unfold validateMessage, checkSigner, checkFname, custodyLookup, signerLookup,
    fidRegistryLookup, fnameRegistryLookup, fnameOf in *.
  simpl. rewrite C. simpl. rewrite A, R. simpl. rewrite S. simpl.
  rewrite U, B, L. unfold await, call. simpl. rewrite L1. simpl. rewrite L2.
  reflexivity.
Qed.

(** X8.  The registry lookups of the fname check are awaited as they are:
    when the id-registry lookup, or after it the name-registry lookup, is
    rejected, [validateMessage] does not return an error value but is
    rejected itself with the same reason, without comparing addresses and
    without running the validator, and so is [mergeMessage], which merges
    nothing. *)
Theorem validate_registry_fault {W : Type} (h : Handler W) (w w1 w2 : W)
    (m : Message) (source : option string) (value : option string)
    (a : bytes) (sa : Message) :
  isUserDataAdd m = true -> body m = UserDataBody Fname value -> fnameOf value <> [] ->
  h _ (custodyLookup m) w = (Resolved a, w1) ->
  h _ (signerLookup m) w1 = (Resolved sa, w2) ->
  (forall (e : HubError) (w3 : W),
     h _ (fidRegistryLookup m) w2 = (Rejected e, w3) ->
     run h (validateMessage m) w =
       mkOutcome (Rejected e) w3
         [event (custodyLookup m); event (signerLookup m); event (fidRegistryLookup m)] /\
     run h (mergeMessage m source) w =
       mkOutcome (Rejected e) w3
         [event (custodyLookup m); event (signerLookup m); event (fidRegistryLookup m)]) /\
  (forall (ev1 : option IdRegistryEvent) (e : HubError) (w3 w4 : W),
     h _ (fidRegistryLookup m) w2 = (Resolved ev1, w3) ->
     h _ (fnameRegistryLookup (fnameOf value)) w3 = (Rejected e, w4) ->
     run h (validateMessage m) w =
       mkOutcome (Rejected e) w4
         [event (custodyLookup m); event (signerLookup m); event (fidRegistryLookup m);
          event (fnameRegistryLookup (fnameOf value))] /\
     run h (mergeMessage m source) w =
       mkOutcome (Rejected e) w4
         [event (custodyLookup m); event (signerLookup m); event (fidRegistryLookup m);
          event (fnameRegistryLookup (fnameOf value))]).
Proof.
  intros U B E C S. split.
  - intros e w3 L1.
    pose proof (validate_fid_registry_fault h w w1 w2 w3 m value a sa e U B E C S L1) as V.
    split; [exact V|].
    rewrite (mergeMessage_validation_fault h m source w e) by (rewrite V; reflexivity).
    rewrite V. reflexivity.
  - intros ev1 e w3 w4 L1 L2.
    pose proof (validate_name_registry_fault h w w1 w2 w3 w4 m value a sa ev1 e
                  U B E C S L1 L2) as V.
    split; [exact V|].
    rewrite (mergeMessage_validation_fault h m source w e) by (rewrite V; reflexivity).
    rewrite V. reflexivity.
Qed.

(** The unregistered handle ["carol"]: its lookup is rejected. *)
Lemma validate_registry_fault_witness :
  run (memHandlerStrict returningValidator)
      (mergeMessage (fnameAdd alice aliceKey (Some "carol")) None) world0 =
  mkOutcome (Rejected not_found) world0
    [event (custodyLookup (fnameAdd alice aliceKey (Some "carol")));
     event (signerLookup (fnameAdd alice aliceKey (Some "carol")));
     event (fidRegistryLookup (fnameAdd alice aliceKey (Some "carol")));
     event (fnameRegistryLookup (fnameOf (Some "carol")))].
Proof.
  assert (E : fnameOf (Some "carol") <> []) by (vm_compute; discriminate).
  destruct (validate_registry_fault (memHandlerStrict returningValidator) world0 world0 world0
              (fnameAdd alice aliceKey (Some "carol")) None (Some "carol")
              aliceAddress (signerAddOf alice aliceKey)
              eq_refl eq_refl E eq_refl eq_refl) as [_ H].
  destruct (H (Some (mkIdRegistryEvent IdRegistryRegister alice aliceAddress)) not_found
              world0 world0 eq_refl eq_refl) as [_ G].
  exact G.
Defined.

(** ** Batches: composition *)

Lemma mergeMessages_loop_acc {W : Type} (h : Handler W) (source : string)
      (msgs : list Message) :
  forall (acc : list (HubResult unit)) (w : W),
    run h (mergeMessages_loop msgs source acc) w =
    let o := run h (mergeMessages_loop msgs source []) w in
    mkOutcome (extend acc (result o)) (final o) (trace o).
Proof.
  induction msgs as [|m ms IH]; intros acc w.
  - simpl. now rewrite app_nil_r.
  - cbn [mergeMessages_loop]. rewrite !run_await. cbv zeta.
    destruct (result (run h (mergeMessage m (Some source)) w)) as [r|e]; [|reflexivity].
    rewrite (IH (acc ++ [r])), (IH ([] ++ [r])). cbv zeta. cbn [result final trace].
    destruct (run h (mergeMessages_loop ms source []) _) as [[rs|e] f t];
      cbn [result final trace extend]; [|reflexivity].
    now rewrite <- app_assoc.
Qed.

Lemma mergeMessages_loop_app {W : Type} (h : Handler W) (source : string)
      (ms1 ms2 : list Message) :
  forall (acc : list (HubResult unit)) (w : W),
    run h (mergeMessages_loop (ms1 ++ ms2) source acc) w =
    let o1 := run h (mergeMessages_loop ms1 source acc) w in
    match result o1 with
    | Resolved rs1 =>
        let o2 := run h (mergeMessages_loop ms2 source rs1) (final o1) in
        mkOutcome (result o2) (final o2) (trace o1 ++ trace o2)
    | Rejected e => o1
    end.
Proof.
  induction ms1 as [|m ms IH]; intros acc w.
  - simpl. destruct (run h (mergeMessages_loop ms2 source acc) w); reflexivity.
  - cbn [mergeMessages_loop Datatypes.app]. rewrite !run_await. cbv zeta.
    destruct (result (run h (mergeMessage m (Some source)) w)) as [r|e]; [|reflexivity].
    rewrite IH. cbv zeta. cbn [result final trace].
    destruct (run h (mergeMessages_loop ms source (acc ++ [r])) _) as [[rs|e] f t];
      cbn [result final trace].
    + now rewrite app_assoc.
    + reflexivity.
Qed.

(** X9.  Merging a batch that is the concatenation of two batches is
    merging the first and then, from the state it left, the second: the
    results and the calls are concatenated.  If the first batch ends in a
    fault, the second is not started and the fault is the outcome; if the
    second does, its fault is. *)
Theorem mergeMessages_app {W : Type} (h : Handler W) (w : W)
    (ms1 ms2 : list Message) (source : option string) :
  run h (mergeMessages (ms1 ++ ms2) source) w =
  let o1 := run h (mergeMessages ms1 source) w in
  match result o1 with
  | Resolved rs1 =>
      let o2 := run h (mergeMessages ms2 source) (final o1) in
      mkOutcome (extend rs1 (result o2)) (final o2) (trace o1 ++ trace o2)
  | Rejected e => o1
  end.
Proof.
  unfold mergeMessages. rewrite mergeMessages_loop_app. cbv zeta.
  destruct (result (run h (mergeMessages_loop ms1 (default_source source) []) w)) as [rs1|e];
    [|reflexivity].
  rewrite (mergeMessages_loop_acc h (default_source source) ms2 rs1). reflexivity.
Qed.

Lemma merged_or_fault {W : Type} (h : Handler W) (src : string) (msgs : list Message) :
  forall w : W,
    (exists rs w' tr, MergedInOrder h src w msgs rs w' tr) \/
    (exists pre m post rs w1 tr e,
        msgs = pre ++ m :: post /\
        MergedInOrder h src w pre rs w1 tr /\
        result (run h (mergeMessage m (Some src)) w1) = Rejected e).
Proof.
  induction msgs as [|m ms IH]; intros w.
  - left. exists [], w, []. constructor.
  - destruct (result (run h (mergeMessage m (Some src)) w)) as [r|e] eqn:R.
    + destruct (IH (final (run h (mergeMessage m (Some src)) w)))
        as [[rs [w' [tr M]]] | [pre [m' [post [rs [w1 [tr [e [E [M F]]]]]]]]]].
      * left. exists (r :: rs), w', (trace (run h (mergeMessage m (Some src)) w) ++ tr).
        now constructor.
      * right. exists (m :: pre), m', post, (r :: rs), w1,
          (trace (run h (mergeMessage m (Some src)) w) ++ tr), e.
        split; [now rewrite E|]. split; [now constructor | exact F].
    + right. exists [], m, ms, [], w, [], e. split; [reflexivity|].
      split; [constructor | exact R].
Qed.

(** X10.  Every run of [mergeMessages] is of one of two kinds.  Either it
    returns one result per message, each the outcome of [mergeMessage] in
    the state the previous messages left.  Or some message's merge raised
    a fault: then the batch is rejected with that fault, the messages
    before it were merged in order and stay merged, and the messages after
    it were not looked at. *)
Theorem mergeMessages_outcomes {W : Type} (h : Handler W) (w : W)
    (messages : list Message) (source : option string) :
  let o := run h (mergeMessages messages source) w in
  let src := default_source source in
  (exists rs, result o = Resolved rs /\ List.length rs = List.length messages /\
              MergedInOrder h src w messages rs (final o) (trace o)) \/
  (exists pre m post rs w1 tr e,
      messages = pre ++ m :: post /\
      MergedInOrder h src w pre rs w1 tr /\
      result (run h (mergeMessage m (Some src)) w1) = Rejected e /\
      o = mkOutcome (Rejected e) (final (run h (mergeMessage m (Some src)) w1))
                    (tr ++ trace (run h (mergeMessage m (Some src)) w1))).
Proof.
  cbv zeta. unfold mergeMessages.
  destruct (merged_or_fault h (default_source source) messages w)
    as [[rs [w' [tr M]]] | [pre [m [post [rs [w1 [tr [e [E [M F]]]]]]]]]].
  - left. exists rs.
    rewrite (mergeMessages_loop_run h _ w w' messages rs tr M []).
    cbn [result final trace Datatypes.app]. split; [reflexivity|]. split; [|exact M].
    exact (mergedInOrder_length h _ _ _ _ _ _ M).
  - right. exists pre, m, post, rs, w1, tr, e.
    split; [exact E|]. split; [exact M|]. split; [exact F|].
    rewrite E, mergeMessages_loop_app. cbv zeta.
    rewrite (mergeMessages_loop_run h _ w w1 pre rs tr M []).
    cbn [result final trace Datatypes.app].
    rewrite (mergeMessages_loop_fault h _ w1 m post rs e F). reflexivity.
Qed.

(** ** Batches: a fault ends the batch *)

(** C6 at a faulting message.  [mergeMessage] awaits [validateMessage] as
    it is, and [validateMessage] awaits the registry lookups and hands on
    the validator's promise as they are.  So when the merge of one message
    raises a fault after the messages before it were merged, the promise of
    [mergeMessages] is rejected with that fault: no list of results is
    returned, the messages before stay merged and the messages after are
    never merged.  Two runs on a batch of three: the second message makes
    the validator throw, or asks for a handle whose registry lookup is
    rejected; in both the third message, which merges on its own, is not
    merged and the caller gets no result for the first. *)
Theorem mergeMessages_fault_aborts_batch :
  (forall (W : Type) (h : Handler W) (w w1 : W) (pre post : list Message) (m : Message)
          (source : option string) (rs : list (HubResult unit)) (tr : list Event)
          (e : HubError),
     MergedInOrder h (default_source source) w pre rs w1 tr ->
     result (run h (mergeMessage m (Some (default_source source))) w1) = Rejected e ->
     run h (mergeMessages (pre ++ m :: post) source) w =
     mkOutcome (Rejected e)
               (final (run h (mergeMessage m (Some (default_source source))) w1))
               (tr ++ trace (run h (mergeMessage m (Some (default_source source))) w1))) /\
  (let h := memHandler throwingValidator in
   let o := run h (mergeMessages batch None) world0 in
   result o = Rejected (bad_request "invalid hash") /\
   merges (trace o) = [(CastStore, castBy alice aliceKey h1)] /\
   stored (final o) = [(CastStore, castBy alice aliceKey h1)] /\
   result (run h (mergeMessage (castBy alice aliceKey h2) None) world0) = Resolved (Ok tt)) /\
  (let h := memHandlerStrict returningValidator in
   let o := run h (mergeMessages batchUnboundHandle None) world0 in
   result o = Rejected not_found /\
   merges (trace o) = [(CastStore, castBy alice aliceKey h1)] /\
   stored (final o) = [(CastStore, castBy alice aliceKey h1)] /\
   result (run h (mergeMessage (castBy alice aliceKey h2) None) world0) = Resolved (Ok tt)).
Proof.
  split; [|split].
  - intros W h w w1 pre post m source rs tr e M F.
    unfold mergeMessages. rewrite mergeMessages_loop_app. cbv zeta.
    rewrite (mergeMessages_loop_run h _ w w1 pre rs tr M []).
    cbn [result final trace Datatypes.app].
    rewrite (mergeMessages_loop_fault h _ w1 m post rs e F). reflexivity.
  - cbv zeta. repeat split.
  - cbv zeta. repeat split.
Qed.

(** ** Query surface: outcomes *)

Lemma run_readStore {W X : Type} (h : Handler W) (w : W) (r : StoreRead X) :
  run h (readStore r) w = readOnce h w r.
Proof.
  unfold readStore, readOnce, fromPromise, call, ret, toResult. simpl.
  destruct (h _ (Read r) w) as [[x|e] w1]; reflexivity.
Qed.

Lemma run_readAddsAndRemoves {W : Type} (h : Handler W) (w : W)
      (getAdds getRemoves : StoreRead (list Message)) :
  run h (readAddsAndRemoves getAdds getRemoves) w = addsThenRemoves h w getAdds getRemoves.
Proof.
  unfold readAddsAndRemoves, addsThenRemoves, fromPromise, call, ret. simpl.
  destruct (h _ (Read getAdds) w) as [[a|e] w1]; simpl; [|reflexivity].
  destruct (h _ (Read getRemoves) w1) as [[r|e] w2]; reflexivity.
Qed.

(** X11.  Each of the five "all messages" accessors reads the store's adds
    and then its removes for the account id as given.  If the adds cannot
    be read, that error is returned and the removes are not read; if the
    removes cannot be read, that error is returned and the adds are
    dropped; otherwise the adds followed by the removes are returned.  The
    promise is never rejected. *)
Theorem getAllMessages_adds_then_removes {W : Type} (h : Handler W) (w : W) (fid : bytes) :
  Forall (fun entry =>
            let o := run h (fst entry) w in
            let getAdds := fst (snd entry) in
            let getRemoves := snd (snd entry) in
            o = addsThenRemoves h w getAdds getRemoves /\
            (forall e, fst (h _ (Read getAdds) w) = Rejected e ->
                       result o = Resolved (Err e) /\ trace o = [event (Read getAdds)]) /\
            (forall adds, fst (h _ (Read getAdds) w) = Resolved adds ->
               trace o = [event (Read getAdds); event (Read getRemoves)] /\
               result o =
               Resolved match fst (h _ (Read getRemoves) (snd (h _ (Read getAdds) w))) with
                        | Resolved removes => Ok (adds ++ removes)
                        | Rejected e => Err e
                        end))
         (allMessagesAccessors fid).
Proof.
  assert (G : forall ga gr,
             let o := run h (readAddsAndRemoves ga gr) w in
             o = addsThenRemoves h w ga gr /\
             (forall e, fst (h _ (Read ga) w) = Rejected e ->
                        result o = Resolved (Err e) /\ trace o = [event (Read ga)]) /\
             (forall adds, fst (h _ (Read ga) w) = Resolved adds ->
                trace o = [event (Read ga); event (Read gr)] /\
                result o =
                Resolved match fst (h _ (Read gr) (snd (h _ (Read ga) w))) with
                         | Resolved removes => Ok (adds ++ removes)
                         | Rejected e => Err e
                         end)).
  { intros ga gr. cbv zeta. rewrite run_readAddsAndRemoves. unfold addsThenRemoves.
    split; [reflexivity|].
    destruct (h _ (Read ga) w) as [[a|e] w1]; simpl.
    - split; [intros e' H; discriminate H|].
      intros adds H. injection H as <-.
      destruct (h _ (Read gr) w1) as [[r|e] w2]; simpl; split; reflexivity.
    - split; [|intros adds H; discriminate H].
      intros e' H. injection H as <-. split; reflexivity. }
  unfold allMessagesAccessors.
  repeat (apply Forall_cons; [exact (G _ _)|]). apply Forall_nil.
Qed.

(** X12.  No accessor of the query surface ever rejects its promise: an
    invalid argument and a failed store read both come back as an error
    value. *)
Theorem query_never_rejects (V : Validations) {W : Type} (h : Handler W) :
  (forall fid tsHash, settled h (getCast V fid tsHash)) /\
  (forall fid, settled h (getCastsByFid V fid)) /\
  (forall parent, settled h (getCastsByParent V parent)) /\
  (forall user, settled h (getCastsByMention V user)) /\
  (forall fid, settled h (getAllCastMessagesByFid fid)) /\
  (forall fid user, settled h (getFollow V fid user)) /\
  (forall fid, settled h (getFollowsByFid V fid)) /\
  (forall user, settled h (getFollowsByUser V user)) /\
  (forall fid, settled h (getAllFollowMessagesByFid fid)) /\
  (forall fid type cast, settled h (getReaction V fid type cast)) /\
  (forall fid type, settled h (getReactionsByFid V fid type)) /\
  (forall cast type, settled h (getReactionsByCast V cast type)) /\
  (forall fid, settled h (getAllReactionMessagesByFid fid)) /\
  (forall fid address, settled h (getVerification V fid address)) /\
  (forall fid, settled h (getVerificationsByFid V fid)) /\
  (forall fid, settled h (getAllVerificationMessagesByFid fid)) /\
  (forall fid key, settled h (getSigner V fid key)) /\
  (forall fid, settled h (getSignersByFid V fid)) /\
  (forall fid, settled h (getCustodyEvent V fid)) /\
  settled h getFids /\
  (forall fid, settled h (getAllSignerMessagesByFid fid)) /\
  (forall fid type, settled h (getUserData V fid type)) /\
  (forall fid, settled h (getUserDataByFid V fid)) /\
  settled h getHubState.
Proof.
  assert (R : forall X (r : StoreRead X), settled h (readStore r)).
  { intros X r w. rewrite run_readStore. eexists. reflexivity. }
  assert (A : forall ga gr, settled h (readAddsAndRemoves ga gr)).
  { intros ga gr w. rewrite run_readAddsAndRemoves. unfold addsThenRemoves.
    destruct (h _ (Read ga) w) as [[a|e] w1]; [|eexists; reflexivity].
    destruct (h _ (Read gr) w1) as [[r|e] w2]; eexists; reflexivity. }
  assert (E : forall X (e : HubError), settled h (ret (@Err X e))).
  { intros X e w. eexists. reflexivity. }
  unfold getCast, getCastsByFid, getCastsByParent, getCastsByMention, getAllCastMessagesByFid,
    getFollow, getFollowsByFid, getFollowsByUser, getAllFollowMessagesByFid,
    getReaction, getReactionsByFid, getReactionsByCast, getAllReactionMessagesByFid,
    getVerification, getVerificationsByFid, getAllVerificationMessagesByFid,
    getSigner, getSignersByFid, getCustodyEvent, getFids, getAllSignerMessagesByFid,
    getUserData, getUserDataByFid, getHubState.
  repeat split; intros;
    repeat match goal with
           | |- context [match ?x with Ok _ => _ | Err _ => _ end] => destruct x
           end; auto.
Qed.

(** X13.  With arguments its validators accept, each of the seventeen
    accessors that validate makes exactly one store read and returns the
    store's answer, a rejected read as an error value.  The seven written
    with [match] ([getCastsByFid], [getCastsByParent], [getCastsByMention],
    [getFollowsByFid], [getFollowsByUser], [getReactionsByFid],
    [getReactionsByCast]) read the store with the value the validator
    returned; [getFollow] reads with its account id as given and with the
    account id of the validated user; the other nine read with their
    arguments as given. *)
Theorem query_reads_once (V : Validations) {W : Type} (h : Handler W) (w : W) :
  (forall fid vfid, validateFid V fid = Ok vfid ->
     run h (getCastsByFid V fid) w = readOnce h w (castStore_getCastAddsByUser vfid) /\
     run h (getFollowsByFid V fid) w = readOnce h w (followStore_getFollowAddsByUser vfid) /\
     (forall type, run h (getReactionsByFid V fid type) w =
                   readOnce h w (reactionStore_getReactionAddsByUser vfid type)) /\
     (forall user vuser, validateUserId V user = Ok vuser ->
        run h (getFollow V fid user) w =
        readOnce h w (followStore_getFollowAdd fid (user_fidArray vuser))) /\
     run h (getVerificationsByFid V fid) w =
       readOnce h w (verificationStore_getVerificationAddsByUser fid) /\
     run h (getSignersByFid V fid) w = readOnce h w (signerStore_getSignerAddsByUser fid) /\
     run h (getCustodyEvent V fid) w = readOnce h w (signerStore_getCustodyEvent fid) /\
     (forall type, run h (getUserData V fid type) w =
                   readOnce h w (userDataStore_getUserDataAdd fid type)) /\
     run h (getUserDataByFid V fid) w =
       readOnce h w (userDataStore_getUserDataAddsByUser fid) /\
     (forall tsHash v, validateTsHash V tsHash = Ok v ->
        run h (getCast V fid tsHash) w = readOnce h w (castStore_getCastAdd fid tsHash)) /\
     (forall type cast vt vc,
        validateReactionType V type = Ok vt -> validateCastId V cast = Ok vc ->
        run h (getReaction V fid type cast) w =
        readOnce h w (reactionStore_getReactionAdd fid type cast)) /\
     (forall address v, validateEthAddress V address = Ok v ->
        run h (getVerification V fid address) w =
        readOnce h w (verificationStore_getVerificationAdd fid address)) /\
     (forall key v, validateEd25519PublicKey V key = Ok v ->
        run h (getSigner V fid key) w = readOnce h w (signerStore_getSignerAdd fid key))) /\
  (forall parent vparent, validateCastId V parent = Ok vparent ->
     run h (getCastsByParent V parent) w =
     readOnce h w (castStore_getCastsByParent (fidArray vparent) (tsHashArray vparent))) /\
  (forall user vuser, validateUserId V user = Ok vuser ->
     run h (getCastsByMention V user) w =
     readOnce h w (castStore_getCastsByMention (user_fidArray vuser))) /\
  (forall user vuser, validateUserId V user = Ok vuser ->
     run h (getFollowsByUser V user) w =
     readOnce h w (followStore_getFollowsByTargetUser (user_fidArray vuser))) /\
  (forall cast type vcast, validateCastId V cast = Ok vcast ->
     run h (getReactionsByCast V cast type) w =
     readOnce h w (reactionStore_getReactionsByTargetCast vcast type)).
Proof.
  unfold getCastsByFid, getFollowsByFid, getReactionsByFid, getVerificationsByFid,
    getSignersByFid, getCustodyEvent, getUserData, getUserDataByFid, getCast, getFollow,
    getReaction, getVerification, getSigner, getCastsByParent, getCastsByMention,
    getFollowsByUser, getReactionsByCast.
  repeat split; intros;
    repeat match goal with
           | H : ?x = Ok _ |- context [?x] => rewrite H
           end; apply run_readStore.
Qed.

Lemma query_reads_once_witness :
  run (memHandler returningValidator) (getCastsByFid sampleValidations alice) world0 =
    readOnce (memHandler returningValidator) world0 (castStore_getCastAddsByUser alice) /\
  run (memHandler returningValidator)
      (getCastsByParent sampleValidations (mkCastId alice h1)) world0 =
    readOnce (memHandler returningValidator) world0 (castStore_getCastsByParent alice h1).
Proof.
  destruct (query_reads_once sampleValidations (memHandler returningValidator) world0)
    as [F [P _]].
  destruct (F alice alice eq_refl) as [H _].
  split; [exact H|].
  exact (P (mkCastId alice h1) (mkCastId alice h1) eq_refl).
Defined.

(** ** The gate is sound *)

(** X14.  [mergeMessage] is rejected exactly when [validateMessage] is, and
    with the same reason: the store's merge and the log never make it
    throw. *)
Theorem mergeMessage_fault_iff {W : Type} (h : Handler W) (w : W) (m : Message)
    (source : option string) (e : HubError) :
  result (run h (mergeMessage m source) w) = Rejected e <->
  result (run h (validateMessage m) w) = Rejected e.
Proof.
  destruct (result (run h (validateMessage m) w)) as [[m'|e']|e'] eqn:V.
  - rewrite (mergeMessage_validated h m m' source w V). cbv zeta.
    destruct (storeOf (setPostfix m)) as [s|]; cbn [result].
    + destruct (mergeInto_settles h s m (default_source source)
                  (final (run h (validateMessage m) w))) as [r R].
      rewrite R. split; discriminate.
    + split; discriminate.
  - rewrite (mergeMessage_validation_failed h m source w e' V). cbn [result].
    split; discriminate.
  - rewrite (mergeMessage_validation_fault h m source w e' V). cbn [result].
    split; intros H; injection H as ->; reflexivity.
Qed.




(** ** Where errors come from *)

Lemma validate_err_origin {W : Type} (h : Handler W) (w : W) (m : Message) (e : HubError) :
  result (run h (validateMessage m) w) = Resolved (Err e) ->
  e = bad_request "unknown user" \/ e = bad_request "invalid signer" \/
  e = fname_mismatch \/
  exists w', fst (h _ (schemaCheck m) w') = Resolved (Err e).
Proof.
  unfold validateMessage, checkSigner, checkFname, schemaCheck, fname_mismatch,
    await, call, fromPromise, ret.
  simpl. settle_calls h; intros H; try discriminate H;
    try (injection H as <-; tauto);
    right; right; right;
    match goal with
    | E : h _ (validations_validateMessage m) ?w' = _ |- _ =>
        exists w'; rewrite E; exact H
    end.
Qed.

(** X16.  Every error value [mergeMessage] returns is one of: "unknown
    user", "invalid signer", "fname custody address does not match fid
    custody address", an error value of the schema/signature validator,
    "invalid message type", or the reason with which the store of the
    message's category rejected the merge. *)
Theorem mergeMessage_err_origin {W : Type} (h : Handler W) (w : W) (m : Message)
    (source : option string) (e : HubError) :
  result (run h (mergeMessage m source) w) = Resolved (Err e) ->
  e = bad_request "unknown user" \/ e = bad_request "invalid signer" \/
  e = fname_mismatch \/
  (exists w', fst (h _ (schemaCheck m) w') = Resolved (Err e)) \/
  (storeOf (setPostfix m) = None /\ e = bad_request "invalid message type") \/
  (exists s w', storeOf (setPostfix m) = Some s /\ fst (h _ (Merge s m) w') = Rejected e).
Proof.
  intros H.
  destruct (result (run h (validateMessage m) w)) as [[m'|e']|e'] eqn:V.
  - rewrite (mergeMessage_validated h m m' source w V) in H. cbv zeta in H.
    destruct (storeOf (setPostfix m)) as [s|] eqn:S; cbn [result] in H.
    + do 5 right. exists s, (final (run h (validateMessage m) w)). split; [reflexivity|].
      rewrite run_mergeInto in H.
      destruct (fst (h _ (Merge s m) (final (run h (validateMessage m) w)))) as [u|e0];
        cbn [result] in H; [discriminate H|].
      injection H as <-. reflexivity.
    + injection H as <-. do 4 right. left. split; reflexivity.
  - rewrite (mergeMessage_validation_failed h m source w e' V) in H. cbn [result] in H.
    injection H as <-.
    destruct (validate_err_origin h w m e' V) as [E|[E|[E|E]]]; tauto.
  - rewrite (mergeMessage_validation_fault h m source w e' V) in H. discriminate H.
Qed.

(** A cast into a cast store that cannot write. *)
Lemma mergeMessage_err_origin_witness :
  exists s w',
    storeOf (setPostfix (castBy alice aliceKey h1)) = Some s /\
    fst (memHandler returningValidator _ (Merge s (castBy alice aliceKey h1)) w') =
    Rejected storage_failure.
Proof.
  destruct (mergeMessage_err_origin (memHandler returningValidator)
              (mkWorld [(alice, aliceAddress)] [(alice, aliceKey)] [] [] [CastStore])
              (castBy alice aliceKey h1) None storage_failure eq_refl)
    as [E|[E|[E|[[w' E]|[[_ E]|E]]]]]; try (vm_compute in E; discriminate E).
  exact E.
Defined.
